(** * A calculator keypad reducer, verified

    Shallow embedding of [frontend/app/screens/HomeScreen.tsx]: the four
    pieces of component state, the seven press handlers and the label
    dispatcher [handleButtonPress].

    JavaScript numbers are IEEE-754 binary64 values.  They are modelled
    with the integer-based [spec_float] of the Standard Library (mantissa
    and exponent as [positive] and [Z]), instantiated at precision 53 and
    exponent bound 1024, so every operation below evaluates inside Rocq.
    The three built-ins the handlers call, [parseFloat],
    [Number.isNaN] and [Number.prototype.toString], follow ECMA-262. *)

From Stdlib Require Import ZArith Bool List Lia.
From Stdlib Require Import Ascii String.
From Stdlib Require Import Decimal DecimalString.
From Stdlib Require DecimalFacts DecimalPos.
From Stdlib Require Import SpecFloat.
Import ListNotations.

#[local] Open Scope Z_scope.

(* ================================================================== *)
(** ** JavaScript numbers *)

Module JSNumber.

(** The [number] type: binary64. *)
Definition number : Type := spec_float.

Definition prec : Z := 53.
Definition emax : Z := 1024.

Definition NaN : number := S754_nan.

(** [Number.isNaN]. *)
Definition isNaN (x : number) : bool :=
  match x with
  | S754_nan => true
  | _ => false
  end.

(** [x === 0] on numbers: true for both signed zeros. *)
Definition is_zero (x : number) : bool :=
  match x with
  | S754_zero _ => true
  | _ => false
  end.

Definition is_infinite (x : number) : bool :=
  match x with
  | S754_infinity _ => true
  | _ => false
  end.

(** The sign bit of a number other than NaN. *)
Definition sign_bit (x : number) : bool :=
  match x with
  | S754_zero s | S754_infinity s | S754_finite s _ _ => s
  | S754_nan => false
  end.

(** The arithmetic operators [+], [-], [*] and [/] on numbers. *)
Definition add : number -> number -> number := SFadd prec emax.
Definition sub : number -> number -> number := SFsub prec emax.
Definition mul : number -> number -> number := SFmul prec emax.
Definition div : number -> number -> number := SFdiv prec emax.

(** Structural equality of numbers, as a boolean. *)
Definition same (x y : number) : bool :=
  match x, y with
  | S754_zero s, S754_zero t => Bool.eqb s t
  | S754_infinity s, S754_infinity t => Bool.eqb s t
  | S754_nan, S754_nan => true
  | S754_finite s m e, S754_finite t n f =>
      Bool.eqb s t && Pos.eqb m n && Z.eqb e f
  | _, _ => false
  end.

(** The binary64 value nearest to the positive rational [p / q]
    (round to nearest, ties to even), with sign [sx].  The quotient is
    taken with enough bits and a sticky location, then rounded once. *)
Definition round_ratio (sx : bool) (p q : Z) : number :=
  let '(mz, ez, lz) := SFdiv_core_binary prec emax p 0 q 0 in
  binary_round_aux prec emax sx mz ez lz.

(** The number denoted by the decimal [m * 10^e], [m >= 0]: the
    mathematical value rounded once, whatever the number of digits of
    [m] (engines round correctly; they do not use the licence of
    ECMA-262 to drop digits after the twentieth). *)
Definition of_decimal (sx : bool) (m e : Z) : number :=
  if m =? 0 then S754_zero sx
  else if 0 <=? e then round_ratio sx (m * 10 ^ e) 1
  else round_ratio sx m (10 ^ (- e)).

(** Integer literals of the source, such as the [100] of
    [handlePercentPress]. *)
Definition of_Z (z : Z) : number :=
  of_decimal (z <? 0) (Z.abs z) 0.

End JSNumber.
Export JSNumber.

(* ================================================================== *)
(** ** JavaScript strings *)

Module JSString.

#[local] Open Scope string_scope.

(** [s.includes(t)]: [t] occurs in [s] at some position. *)
Fixpoint includes (s t : string) : bool :=
  String.prefix t s ||
  match s with
  | EmptyString => false
  | String _ s' => includes s' t
  end.

(** [s.startsWith(t)]. *)
Definition startsWith (s t : string) : bool := String.prefix t s.

(** [s.slice(1)]: [s] without its first character. *)
Definition slice1 (s : string) : string :=
  match s with
  | EmptyString => EmptyString
  | String _ s' => s'
  end.

(** Number of occurrences of the character [c] in [s]. *)
Fixpoint count_char (c : ascii) (s : string) : nat :=
  match s with
  | EmptyString => 0%nat
  | String a s' => ((if Ascii.eqb a c then 1 else 0) + count_char c s')%nat
  end.

End JSString.
Export JSString.

(* ================================================================== *)
(** ** Decimal digits *)

Module Digits.

#[local] Open Scope char_scope.

Definition is_digit (c : ascii) : bool :=
  match c with
  | "0" | "1" | "2" | "3" | "4" | "5" | "6" | "7" | "8" | "9" => true
  | _ => false
  end.

Definition digit_value (c : ascii) : Z :=
  match c with
  | "1" => 1 | "2" => 2 | "3" => 3 | "4" => 4 | "5" => 5
  | "6" => 6 | "7" => 7 | "8" => 8 | "9" => 9
  | _ => 0
  end.

(** Value of a run of digits, most significant first. *)
Definition digits_value (l : list ascii) : Z :=
  fold_left (fun acc c => 10 * acc + digit_value c) l 0.

(** The longest run of digits at the front of [l], and the rest. *)
Fixpoint span_digits (l : list ascii) : list ascii * list ascii :=
  match l with
  | c :: r =>
      if is_digit c
      then let '(ds, rest) := span_digits r in (c :: ds, rest)
      else ([], l)
  | [] => ([], [])
  end.

(** Decimal digits of a positive integer, most significant first. *)
Definition digits_of_pos (p : positive) : list ascii :=
  list_ascii_of_string (NilEmpty.string_of_uint (Pos.to_uint p)).

(** A run of digits without its trailing zeros. *)
Fixpoint strip_trailing_zeros (l : list ascii) : list ascii :=
  match l with
  | [] => []
  | c :: r =>
      match strip_trailing_zeros r with
      | [] => if Ascii.eqb c "0" then [] else [c]
      | r' => c :: r'
      end
  end.

Definition zeros (n : nat) : list ascii := repeat "0" n.

(** Lists of digit characters. *)
Abbreviation all_digits := (Forall (fun c : ascii => is_digit c = true)).

End Digits.
Export Digits.

(* ================================================================== *)
(** ** [parseFloat] *)

Module JSParse.

#[local] Open Scope char_scope.
#[local] Open Scope Z_scope.

(** White space skipped at the front of the input (the one-byte
    members of the WhiteSpace and LineTerminator productions). *)
Definition is_whitespace (c : ascii) : bool :=
  match c with
  | " " | "009" | "010" | "011" | "012" | "013" => true
  | _ => false
  end.

Fixpoint trim_start (l : list ascii) : list ascii :=
  match l with
  | c :: r => if is_whitespace c then trim_start r else l
  | [] => []
  end.

Fixpoint is_prefix (p l : list ascii) : bool :=
  match p, l with
  | [], _ => true
  | a :: p', b :: l' => Ascii.eqb a b && is_prefix p' l'
  | _ :: _, [] => false
  end.

(** ExponentPart, when one is present and well formed; [0] otherwise. *)
Definition parse_exponent (l : list ascii) : Z :=
  match l with
  | c :: r =>
      if Ascii.eqb c "e" || Ascii.eqb c "E" then
        let '(neg, r') :=
          match r with
          | "+" :: t => (false, t)
          | "-" :: t => (true, t)
          | _ => (false, r)
          end in
        match fst (span_digits r') with
        | [] => 0
        | ds => if neg then - digits_value ds else digits_value ds
        end
      else 0
  | [] => 0
  end.

(** The longest prefix that is a StrUnsignedDecimalLiteral, and its
    value; NaN when there is none. *)
Definition parse_unsigned (sx : bool) (l : list ascii) : number :=
  if is_prefix (list_ascii_of_string "Infinity") l then S754_infinity sx
  else
    let '(ip, r1) := span_digits l in
    let '(fp, r2) :=
      match r1 with
      | "." :: r => span_digits r
      | _ => ([], r1)
      end in
    match ip, fp with
    | [], [] => NaN
    | _, _ =>
        of_decimal sx (digits_value (ip ++ fp))
                   (parse_exponent r2 - Z.of_nat (List.length fp))
    end.

Definition parseFloat (s : string) : number :=
  match trim_start (list_ascii_of_string s) with
  | "+" :: r => parse_unsigned false r
  | "-" :: r => parse_unsigned true r
  | l => parse_unsigned false l
  end.

End JSParse.
Export JSParse.

(* ================================================================== *)
(** ** [Number.prototype.toString] *)

Module JSPrint.

#[local] Open Scope char_scope.
#[local] Open Scope Z_scope.

(** A finite positive number [m * 2^e] as a fraction. *)
Definition ratio_of (m : positive) (e : Z) : Z * Z :=
  if 0 <=? e then (Zpos m * 2 ^ e, 1) else (Zpos m, 2 ^ (- e)).

Definition num_digits (z : Z) : Z :=
  Z.of_nat (List.length (digits_of_pos (Z.to_pos z))).

(** The [n] with [10^(n-1) <= P/Q < 10^n]. *)
Definition decimal_magnitude (P Q : Z) : Z :=
  if Q <=? P then num_digits (P / Q)
  else 1 - num_digits ((Q + P - 1) / P - 1).

(** [P/Q] divided by [10^e], as a fraction. *)
Definition scale (P Q e : Z) : Z * Z :=
  if 0 <=? e then (P, Q * 10 ^ e) else (P * 10 ^ (- e), Q).

(** Does the decimal [s * 10^e] denote the number [x]? *)
Definition represents (x : number) (s e : Z) : bool :=
  same (of_decimal false s e) x.

(** The shortest decimal that denotes [x = P/Q]: for [k = 1, 2, ...]
    digits, the integers on both sides of [x / 10^(n0-k)] are tried,
    and the nearer one is taken when both denote [x].  Seventeen
    digits always identify a binary64 value, so the search stops
    there with the nearest decimal. *)
Fixpoint shortest_search (fuel : nat) (k : Z) (x : number) (P Q n0 : Z)
  : Z * Z :=
  let e := n0 - k in
  let '(num, den) := scale P Q e in
  let f := num / den in
  let c := if num mod den =? 0 then f else f + 1 in
  let nearest :=
    if 2 * num <? (f + c) * den then f
    else if (f + c) * den <? 2 * num then c
    else if Z.even f then f else c in
  match fuel with
  | O => (nearest, e)
  | S fuel' =>
      match represents x f e, represents x c e with
      | true, true => (nearest, e)
      | true, false => (f, e)
      | false, true => (c, e)
      | false, false => shortest_search fuel' (k + 1) x P Q n0
      end
  end.

(** The digits of [s] and the exponent [n] of step 5 of
    Number::toString, for the finite positive number [m * 2^e]. *)
Definition shortest_decimal (m : positive) (e : Z) : list ascii * Z :=
  let '(P, Q) := ratio_of m e in
  let '(s, e10) :=
    shortest_search 16 1 (S754_finite false m e) P Q
                    (decimal_magnitude P Q) in
  let ds := digits_of_pos (Z.to_pos s) in
  (strip_trailing_zeros ds, e10 + Z.of_nat (List.length ds)).

(** Steps 6 to 10 of Number::toString: plain notation when
    [-5 <= n <= 21], exponent notation otherwise. *)
Definition format_decimal (ds : list ascii) (n : Z) : list ascii :=
  let k := Z.of_nat (List.length ds) in
  if (-5 <=? n) && (n <=? 21) then
    if k <=? n then ds ++ zeros (Z.to_nat (n - k))
    else if 0 <? n then
      firstn (Z.to_nat n) ds ++ "." :: skipn (Z.to_nat n) ds
    else "0" :: "." :: zeros (Z.to_nat (- n)) ++ ds
  else
    let exponent :=
      (if n <? 0 then "-" else "+")
        :: digits_of_pos (Z.to_pos (Z.abs (n - 1))) in
    if k =? 1 then ds ++ "e" :: exponent
    else firstn 1 ds ++ "." :: skipn 1 ds ++ "e" :: exponent.

Definition toString (x : number) : string :=
  match x with
  | S754_nan => "NaN"%string
  | S754_zero _ => "0"%string
  | S754_infinity false => "Infinity"%string
  | S754_infinity true => "-Infinity"%string
  | S754_finite sx m e =>
      let '(ds, n) := shortest_decimal m e in
      string_of_list_ascii
        ((if sx then ["-"] else []) ++ format_decimal ds n)
  end.

End JSPrint.
Export JSPrint.

(* ================================================================== *)
(** ** The calculator *)

#[local] Open Scope string_scope.

(** [type Operator = "+" | "-" | "×" | "÷"]. *)
Inductive Operator : Type := Add | Subtract | Multiply | Divide.

(** The component state: the four [useState] cells of [HomeScreen]. *)
Record CalculatorState : Type := mkState {
  displayValue : string;
  previousValue : option number;
  operator : option Operator;
  isNewEntry : bool
}.

Definition initialState : CalculatorState :=
  {| displayValue := "0";
     previousValue := None;
     operator := None;
     isNewEntry := true |}.

(** The four state setters. *)
Definition setDisplayValue (v : string) (s : CalculatorState) :=
  {| displayValue := v;
     previousValue := previousValue s;
     operator := operator s;
     isNewEntry := isNewEntry s |}.

Definition setPreviousValue (v : option number) (s : CalculatorState) :=
  {| displayValue := displayValue s;
     previousValue := v;
     operator := operator s;
     isNewEntry := isNewEntry s |}.

Definition setOperator (v : option Operator) (s : CalculatorState) :=
  {| displayValue := displayValue s;
     previousValue := previousValue s;
     operator := v;
     isNewEntry := isNewEntry s |}.

Definition setIsNewEntry (v : bool) (s : CalculatorState) :=
  {| displayValue := displayValue s;
     previousValue := previousValue s;
     operator := operator s;
     isNewEntry := v |}.

(** Each handler reads the state of the current render, [s], and
    queues its writes; the writes of one press land together. *)

Definition handleDigitPress (digit : string) (s : CalculatorState)
  : CalculatorState :=
  let current := displayValue s in
  if isNewEntry s || (current =? "0")
  then setDisplayValue digit (setIsNewEntry false s)
  else setDisplayValue (current ++ digit) s.

Definition handleDotPress (s : CalculatorState) : CalculatorState :=
  let current := displayValue s in
  if isNewEntry s then setDisplayValue "0." (setIsNewEntry false s)
  else if includes current "." then setDisplayValue current s
  else setDisplayValue (current ++ ".") s.

(** The [default] branch of the source's [switch] is not reachable at
    type [Operator]. *)
Definition performCalculation (op : Operator) (a b : number) : number :=
  match op with
  | Add => add a b
  | Subtract => sub a b
  | Multiply => mul a b
  | Divide => if is_zero b then NaN else div a b
  end.

(** The text shown for the result of a calculation. *)
Definition display_of_result (result : number) : string :=
  if isNaN result then "Error" else toString result.

Definition handleOperatorPress (nextOperator : Operator)
  (s : CalculatorState) : CalculatorState :=
  let current := parseFloat (displayValue s) in
  let s' :=
    match previousValue s, operator s, isNewEntry s with
    | Some prev, Some op, false =>
        let result := performCalculation op prev current in
        setDisplayValue (display_of_result result)
          (setPreviousValue (Some result) s)
    | _, _, _ => setPreviousValue (Some current) s
    end in
  setIsNewEntry true (setOperator (Some nextOperator) s').

Definition handleEqualsPress (s : CalculatorState) : CalculatorState :=
  match operator s, previousValue s with
  | Some op, Some prev =>
      let current := parseFloat (displayValue s) in
      let result := performCalculation op prev current in
      setIsNewEntry true
        (setOperator None
          (setPreviousValue None
            (setDisplayValue (display_of_result result) s)))
  | _, _ => s
  end.

Definition handleClearPress (s : CalculatorState) : CalculatorState :=
  setIsNewEntry true
    (setOperator None (setPreviousValue None (setDisplayValue "0" s))).

Definition handleToggleSignPress (s : CalculatorState) : CalculatorState :=
  let current := displayValue s in
  if (current =? "0") || (current =? "Error") then setDisplayValue current s
  else if startsWith current "-" then setDisplayValue (slice1 current) s
  else setDisplayValue ("-" ++ current) s.

Definition handlePercentPress (s : CalculatorState) : CalculatorState :=
  let current := displayValue s in
  let value := parseFloat current in
  if isNaN value then setDisplayValue current s
  else
    let result := div value (of_Z 100) in
    setDisplayValue (toString result) s.

(** The test [/^[0-9]$/]. *)
Definition is_digit_label (label : string) : bool :=
  match label with
  | String c EmptyString => is_digit c
  | _ => false
  end.

Definition handleButtonPress (label : string) (s : CalculatorState)
  : CalculatorState :=
  if is_digit_label label then handleDigitPress label s
  else if label =? "." then handleDotPress s
  else if label =? "AC" then handleClearPress s
  else if label =? "+/-" then handleToggleSignPress s
  else if label =? "%" then handlePercentPress s
  else if label =? "+" then handleOperatorPress Add s
  else if label =? "-" then handleOperatorPress Subtract s
  else if label =? "×" then handleOperatorPress Multiply s
  else if label =? "÷" then handleOperatorPress Divide s
  else if label =? "=" then handleEqualsPress s
  else s.

(** *** Tokens: the keys of the pad *)

Inductive digit : Type := d0 | d1 | d2 | d3 | d4 | d5 | d6 | d7 | d8 | d9.

Inductive Token : Type :=
  | Digit (d : digit)
  | Dot
  | Clear
  | ToggleSign
  | Percent
  | OperatorKey (op : Operator)
  | Equals.

Definition digit_label (d : digit) : string :=
  match d with
  | d0 => "0" | d1 => "1" | d2 => "2" | d3 => "3" | d4 => "4"
  | d5 => "5" | d6 => "6" | d7 => "7" | d8 => "8" | d9 => "9"
  end.

Definition operator_label (op : Operator) : string :=
  match op with
  | Add => "+"
  | Subtract => "-"
  | Multiply => "×"
  | Divide => "÷"
  end.

(** The label on the button of a token, as in [buttonRows]. *)
Definition label_of (t : Token) : string :=
  match t with
  | Digit d => digit_label d
  | Dot => "."
  | Clear => "AC"
  | ToggleSign => "+/-"
  | Percent => "%"
  | OperatorKey op => operator_label op
  | Equals => "="
  end.

(** The reducer of the specification: one press. *)
Definition apply_token (s : CalculatorState) (t : Token) : CalculatorState :=
  handleButtonPress (label_of t) s.

Definition run (ts : list Token) (s : CalculatorState) : CalculatorState :=
  fold_left apply_token ts s.

(** States the pad can be in: those reached from the initial state by
    a sequence of presses. *)
Inductive reachable : CalculatorState -> Prop :=
  | reachable_init : reachable initialState
  | reachable_step s t : reachable s -> reachable (apply_token s t).

(** *** Vocabulary of the properties *)

(** Number of decimal points in a display string. *)
Definition decimal_points (v : string) : nat := count_char "." v.

(** A display that starts like a number: a digit, or the [I] of
    [Infinity]. *)
Definition body_start (v : string) : bool :=
  match v with
  | String c _ => is_digit c || Ascii.eqb c "I"
  | EmptyString => false
  end.

(** A numeric display: a body, or a minus sign before a body other
    than ["0"]. *)
Definition numeric_display (v : string) : bool :=
  match v with
  | String "-" b => body_start b && negb (b =? "0")
  | _ => body_start v
  end.

(** The calculation a press performs in state [s], if it performs
    one: operator, left operand, right operand.  These are the
    arguments [handleOperatorPress] and [handleEqualsPress] pass to
    [performCalculation]. *)
Definition pending_evaluation (s : CalculatorState) (t : Token)
  : option (Operator * number * number) :=
  match t with
  | OperatorKey _ =>
      match previousValue s, operator s, isNewEntry s with
      | Some prev, Some op, false =>
          Some (op, prev, parseFloat (displayValue s))
      | _, _, _ => None
      end
  | Equals =>
      match operator s, previousValue s with
      | Some op, Some prev => Some (op, prev, parseFloat (displayValue s))
      | _, _ => None
      end
  | _ => None
  end.

(** Operands for which an operator yields NaN although neither is
    NaN: the invalid operations on infinities. *)
Definition invalid_infinite (op : Operator) (a b : number) : bool :=
  match op with
  | Add => is_infinite a && is_infinite b
           && negb (Bool.eqb (sign_bit a) (sign_bit b))
  | Subtract => is_infinite a && is_infinite b
                && Bool.eqb (sign_bit a) (sign_bit b)
  | Multiply => (is_zero a && is_infinite b) || (is_infinite a && is_zero b)
  | Divide => is_infinite a && is_infinite b
  end.

(** The causes of an error display named by the specification: a
    division by zero, or an operand that is already NaN. *)
Definition named_cause (op : Operator) (a b : number) : bool :=
  isNaN a || isNaN b
  || match op with Divide => is_zero b | _ => false end.

(** All causes: the named ones and the invalid operations on
    infinities. *)
Definition nan_cause (op : Operator) (a b : number) : bool :=
  named_cause op a b || invalid_infinite op a b.

(** "An error display arises at the press [t] in state [s] only from a
    calculation with a cause in [cause]". *)
Definition error_only_from (cause : Operator -> number -> number -> bool)
  (s : CalculatorState) (t : Token) : Prop :=
  displayValue (apply_token s t) = "Error" ->
  displayValue s = "Error" \/
  exists op a b,
    pending_evaluation s t = Some (op, a, b) /\
    isNaN (performCalculation op a b) = true /\
    cause op a b = true.

(** The invariant of the reachable states. *)
Definition well_formed (s : CalculatorState) : Prop :=
  (displayValue s = "Error" /\ isNewEntry s = true) \/
  numeric_display (displayValue s) = true.

(* ================================================================== *)
(** ** The rest of the screen *)

(** [buttonRows]: the labels of the pad, row by row. *)
Definition buttonRows : list (list string) :=
  [ ["AC"; "+/-"; "%"; "÷"];
    ["7"; "8"; "9"; "×"];
    ["4"; "5"; "6"; "-"];
    ["1"; "2"; "3"; "+"];
    ["0"; "."; "="] ].

Definition isOperator (label : string) : bool :=
  (label =? "+") || (label =? "-") || (label =? "×") || (label =? "÷").

(** The entries of [styles] that [getButtonStyle] hands out, by key. *)
Inductive ButtonStyle : Type :=
  | button
  | buttonWide
  | buttonDigit
  | buttonUtility
  | buttonOperator.

Definition getButtonStyle (label : string) : list ButtonStyle :=
  if isOperator label || (label =? "=") then [button; buttonOperator]
  else if (label =? "AC") || (label =? "+/-") || (label =? "%")
  then [button; buttonUtility]
  else if label =? "0" then [button; buttonDigit; buttonWide]
  else [button; buttonDigit].

(** *** Vocabulary of the further properties *)

Definition digit_char (d : digit) : ascii :=
  match d with
  | d0 => "0" | d1 => "1" | d2 => "2" | d3 => "3" | d4 => "4"
  | d5 => "5" | d6 => "6" | d7 => "7" | d8 => "8" | d9 => "9"
  end%char.

Definition digit_Z (d : digit) : Z :=
  match d with
  | d0 => 0 | d1 => 1 | d2 => 2 | d3 => 3 | d4 => 4
  | d5 => 5 | d6 => 6 | d7 => 7 | d8 => 8 | d9 => 9
  end.

(** The natural number a sequence of digit keys writes. *)
Definition digits_Z (ds : list digit) : Z :=
  fold_left (fun acc d => 10 * acc + digit_Z d) ds 0.

(** The labels of a sequence of digit keys, one after the other. *)
Fixpoint labels_text (ds : list digit) : string :=
  match ds with
  | [] => ""
  | d :: r => digit_label d ++ labels_text r
  end.

Fixpoint drop_zeros (ds : list digit) : list digit :=
  match ds with
  | d0 :: r => drop_zeros r
  | _ => ds
  end.

(** What the display shows after the digit keys [ds] start a new
    entry: the digits without their leading zeros, and ["0"] when
    nothing else is left. *)
Definition digits_text (ds : list digit) : string :=
  match drop_zeros ds with
  | [] => "0"
  | l => labels_text l
  end.

(** The keys that edit the entry and leave the pending operation
    alone. *)
Definition entry_key (t : Token) : bool :=
  match t with
  | Digit _ | Dot | ToggleSign | Percent => true
  | Clear | OperatorKey _ | Equals => false
  end.

(** A display body [parseFloat] reads as a number: it starts with a
    digit or with [Infinity]. *)
Definition parsable_body (v : string) : bool :=
  let l := list_ascii_of_string v in
  match l with
  | c :: _ => is_digit c || is_prefix (list_ascii_of_string "Infinity") l
  | [] => false
  end.

Definition parsable (v : string) : bool :=
  match v with
  | String "-" b => parsable_body b
  | _ => parsable_body v
  end.

(* ================================================================== *)
(** ** Facts about numbers *)

Module NumberFacts.

#[local] Open Scope Z_scope.

Lemma shr_1_nonneg mrs : 0 <= shr_m mrs -> 0 <= shr_m (shr_1 mrs).
Proof.
  destruct mrs as [m r s]; simpl.
  destruct m as [|[p|p|]|[p|p|]]; simpl; lia.
Qed.

Lemma iter_shr_1_nonneg p :
  forall mrs, 0 <= shr_m mrs -> 0 <= shr_m (iter_pos shr_1 p mrs).
Proof.
  induction p as [p IH|p IH|]; intros mrs H; simpl.
  - apply IH, IH, shr_1_nonneg, H.
  - apply IH, IH, H.
  - apply shr_1_nonneg, H.
Qed.

Lemma shr_fexp_nonneg m e l :
  0 <= m -> 0 <= shr_m (fst (shr_fexp prec emax m e l)).
Proof.
  intros H. unfold shr_fexp, shr.
  assert (H0 : 0 <= shr_m (shr_record_of_loc m l))
    by (destruct l as [|[| |]]; exact H).
  destruct (fexp prec emax (Zdigits2 m + e) - e); simpl; trivial.
  apply iter_shr_1_nonneg, H0.
Qed.

Lemma round_nearest_even_nonneg m l :
  0 <= m -> 0 <= round_nearest_even m l.
Proof.
  intros H. destruct l as [|[| |]]; simpl; try lia.
  destruct (Z.even m); lia.
Qed.

(** Rounding a non-negative mantissa never produces NaN. *)
Lemma binary_round_aux_not_nan sx mx ex lx :
  0 <= mx -> isNaN (binary_round_aux prec emax sx mx ex lx) = false.
Proof.
  intros H. unfold binary_round_aux.
  pose proof (shr_fexp_nonneg mx ex lx H) as H1.
  destruct (shr_fexp prec emax mx ex lx) as [mrs' e']; simpl in H1.
  pose proof (shr_fexp_nonneg _ e' loc_Exact
                (round_nearest_even_nonneg _ (loc_of_shr_record mrs') H1))
    as H2.
  destruct (shr_fexp prec emax _ e' loc_Exact) as [mrs'' e''].
  simpl in H2.
  destruct (shr_m mrs'') as [|m|m]; try reflexivity.
  - destruct (e'' <=? emax - prec); reflexivity.
  - lia.
Qed.

Lemma binary_round_not_nan sx mx ex :
  isNaN (binary_round prec emax sx mx ex) = false.
Proof.
  unfold binary_round.
  destruct (shl_align mx ex _) as [mz ez].
  apply binary_round_aux_not_nan. lia.
Qed.

Lemma binary_normalize_not_nan m e sz :
  isNaN (binary_normalize prec emax m e sz) = false.
Proof.
  destruct m; simpl; trivial; apply binary_round_not_nan.
Qed.

Lemma SFdiv_core_nonneg m1 e1 m2 e2 :
  0 <= m1 -> 0 < m2 ->
  0 <= fst (fst (SFdiv_core_binary prec emax m1 e1 m2 e2)).
Proof.
  intros H1 H2. unfold SFdiv_core_binary.
  set (s := e1 - e2 - _).
  set (m' := match s with Z0 => m1 | Zpos _ => Z.shiftl m1 s | Zneg _ => 0 end).
  assert (Hm : 0 <= m').
  { subst m'. destruct s; try lia. apply Z.shiftl_nonneg, H1. }
  pose proof (Z_div_mod m' m2 ltac:(lia)) as Hd.
  destruct (Z.div_eucl m' m2) as [q r]. simpl.
  destruct Hd as [Hq Hr]. nia.
Qed.

Lemma round_ratio_not_nan sx p q :
  0 <= p -> 0 < q -> isNaN (round_ratio sx p q) = false.
Proof.
  intros Hp Hq. unfold round_ratio.
  pose proof (SFdiv_core_nonneg p 0 q 0 Hp Hq) as H.
  destruct (SFdiv_core_binary prec emax p 0 q 0) as [[mz ez] lz].
  apply binary_round_aux_not_nan, H.
Qed.

(** When [performCalculation] returns NaN. *)
Lemma performCalculation_nan op a b :
  isNaN (performCalculation op a b) = nan_cause op a b.
Proof.
  unfold nan_cause, named_cause.
  destruct op; unfold performCalculation, add, sub, mul, div.
  - destruct a as [sa|sa| |sa ma ea], b as [sb|sb| |sb mb eb];
      try reflexivity;
      try (destruct sa, sb; reflexivity).
    unfold SFadd. rewrite binary_normalize_not_nan. reflexivity.
  - destruct a as [sa|sa| |sa ma ea], b as [sb|sb| |sb mb eb];
      try reflexivity;
      try (destruct sa, sb; reflexivity).
    unfold SFsub. rewrite binary_normalize_not_nan. reflexivity.
  - destruct a as [sa|sa| |sa ma ea], b as [sb|sb| |sb mb eb];
      try reflexivity.
    unfold SFmul. rewrite binary_round_aux_not_nan by lia. reflexivity.
  - destruct a as [sa|sa| |sa ma ea], b as [sb|sb| |sb mb eb];
      try reflexivity.
    unfold is_zero, SFdiv.
    pose proof (SFdiv_core_nonneg (Zpos ma) ea (Zpos mb) eb
                  ltac:(lia) ltac:(lia)) as H.
    destruct (SFdiv_core_binary prec emax (Zpos ma) ea (Zpos mb) eb)
      as [[mz ez] lz].
    rewrite binary_round_aux_not_nan by exact H. reflexivity.
Qed.

End NumberFacts.
Export NumberFacts.

(* ================================================================== *)
(** ** Facts about strings and digits *)

Module TextFacts.

#[local] Open Scope char_scope.
#[local] Open Scope Z_scope.

Lemma count_char_append c (u v : string) :
  count_char c (u ++ v) = (count_char c u + count_char c v)%nat.
Proof.
  induction u as [|a u IH]; simpl; [reflexivity|].
  rewrite IH. lia.
Qed.

Lemma string_of_list_ascii_app (l r : list ascii) :
  string_of_list_ascii (l ++ r)
  = (string_of_list_ascii l ++ string_of_list_ascii r)%string.
Proof.
  induction l as [|a l IH]; simpl; [reflexivity|].
  now rewrite IH.
Qed.

(** A string in which ["."] does not occur has no decimal point. *)
Lemma includes_dot_false (v : string) :
  includes v "." = false -> decimal_points v = 0%nat.
Proof.
  unfold decimal_points.
  induction v as [|a v IH]; simpl; [reflexivity|].
  intros H. apply orb_false_iff in H. destruct H as [Hp Hi].
  rewrite (IH Hi).
  destruct (Ascii.eqb_spec a ".") as [->|Hne]; [|reflexivity].
  simpl in Hp. destruct (ascii_dec "." ".") as [_|Hne]; [|congruence].
  destruct v; discriminate Hp.
Qed.

Lemma is_digit_not_dot c : is_digit c = true -> Ascii.eqb c "." = false.
Proof.
  destruct c as [[|] [|] [|] [|] [|] [|] [|] [|]];
    intros H; try discriminate H; reflexivity.
Qed.

Lemma digits_no_point (l : list ascii) :
  all_digits l -> decimal_points (string_of_list_ascii l) = 0%nat.
Proof.
  unfold decimal_points.
  induction 1 as [|c l Hc _ IH]; simpl; [reflexivity|].
  now rewrite (is_digit_not_dot c Hc), IH.
Qed.

Lemma slice1_points (v : string) :
  (decimal_points (slice1 v) <= decimal_points v)%nat.
Proof.
  unfold decimal_points. destruct v as [|a v]; simpl; lia.
Qed.

Lemma all_digits_firstn n (l : list ascii) :
  all_digits l -> all_digits (firstn n l).
Proof.
  intros H. revert n.
  induction H as [|c l Hc _ IH]; intros [|n]; simpl; auto.
Qed.

Lemma all_digits_skipn n (l : list ascii) :
  all_digits l -> all_digits (skipn n l).
Proof.
  intros H. revert n.
  induction H as [|c l Hc Hl IH]; intros [|n]; simpl; auto.
Qed.

Lemma all_digits_zeros n : all_digits (zeros n).
Proof.
  unfold zeros. induction n; simpl; auto.
Qed.

Lemma all_digits_uint (u : uint) :
  all_digits (list_ascii_of_string (NilEmpty.string_of_uint u)).
Proof.
  induction u; simpl; auto.
Qed.

Lemma all_digits_of_pos p : all_digits (digits_of_pos p).
Proof. apply all_digits_uint. Qed.

(** The decimal numeral of a positive integer starts with a digit
    other than zero. *)
Lemma to_uint_normal p : Pos.to_uint p = unorm (Pos.to_uint p).
Proof.
  rewrite <- DecimalPos.Unsigned.to_of, DecimalPos.Unsigned.of_to.
  reflexivity.
Qed.

Lemma digits_of_pos_head p :
  exists c r, digits_of_pos p = c :: r /\ Ascii.eqb c "0" = false.
Proof.
  unfold digits_of_pos.
  pose proof (DecimalPos.Unsigned.to_uint_nonzero p) as Hz.
  pose proof (to_uint_normal p) as Hn.
  unfold unorm in Hn.
  pose proof (DecimalFacts.nzhead_nonzero (Pos.to_uint p)) as Hh.
  destruct (nzhead (Pos.to_uint p)) as [|u|u|u|u|u|u|u|u|u|u] eqn:E;
    rewrite Hn; simpl;
    try (eexists; eexists; split; [reflexivity|reflexivity]).
  - exfalso. apply Hz. exact Hn.
  - exfalso. apply (Hh u). reflexivity.
Qed.

Lemma all_digits_strip (l : list ascii) :
  all_digits l -> all_digits (strip_trailing_zeros l).
Proof.
  induction 1 as [|c l Hc _ IH]; simpl; auto.
  destruct (strip_trailing_zeros l); [|auto].
  destruct (Ascii.eqb c "0"); auto.
Qed.

Lemma strip_trailing_zeros_head c (r : list ascii) :
  Ascii.eqb c "0" = false ->
  exists r', strip_trailing_zeros (c :: r) = c :: r'.
Proof.
  intros H. simpl. destruct (strip_trailing_zeros r).
  - rewrite H. now exists [].
  - eexists. reflexivity.
Qed.

(** The digit string of Number::toString: digits only, the first
    one not zero. *)
Lemma shortest_decimal_shape m e :
  exists c r,
    fst (shortest_decimal m e) = c :: r /\
    Ascii.eqb c "0" = false /\ all_digits (c :: r).
Proof.
  unfold shortest_decimal.
  destruct (ratio_of m e) as [P Q].
  destruct (shortest_search _ _ _ _ _ _) as [s e10]. simpl.
  destruct (digits_of_pos_head (Z.to_pos s)) as (c & r & E & Hc).
  pose proof (all_digits_strip _ (all_digits_of_pos (Z.to_pos s))) as Hd.
  rewrite E in *.
  destruct (strip_trailing_zeros_head c r Hc) as (r' & E').
  rewrite E' in *. now exists c, r'.
Qed.

Lemma decimal_points_list_app (l r : list ascii) :
  decimal_points (string_of_list_ascii (l ++ r))
  = (decimal_points (string_of_list_ascii l)
     + decimal_points (string_of_list_ascii r))%nat.
Proof.
  unfold decimal_points.
  now rewrite string_of_list_ascii_app, count_char_append.
Qed.

Lemma decimal_points_cons c (l : list ascii) :
  decimal_points (string_of_list_ascii (c :: l))
  = ((if Ascii.eqb c "." then 1 else 0)
     + decimal_points (string_of_list_ascii l))%nat.
Proof. reflexivity. Qed.

(** The exponent part has no decimal point. *)
Lemma exponent_no_point (sg : ascii) p :
  Ascii.eqb sg "." = false ->
  decimal_points (string_of_list_ascii ("e" :: sg :: digits_of_pos p))
  = 0%nat.
Proof.
  intros H. rewrite !decimal_points_cons, H.
  now rewrite (digits_no_point _ (all_digits_of_pos p)).
Qed.

Lemma format_decimal_points (ds : list ascii) n :
  all_digits ds ->
  (decimal_points (string_of_list_ascii (format_decimal ds n)) <= 1)%nat.
Proof.
  intros H. unfold format_decimal.
  pose proof (digits_no_point ds H) as H0.
  pose proof (fun k => digits_no_point _ (all_digits_firstn k ds H)) as Hf.
  pose proof (fun k => digits_no_point _ (all_digits_skipn k ds H)) as Hs.
  pose proof (fun k => digits_no_point _ (all_digits_zeros k)) as Hz.
  assert (He : decimal_points
            (string_of_list_ascii
               ("e" :: (if n <? 0 then "-" else "+")
                    :: digits_of_pos (Z.to_pos (Z.abs (n - 1))))) = 0%nat).
  { apply exponent_no_point. destruct (n <? 0); reflexivity. }
  destruct ((-5 <=? n) && (n <=? 21)).
  - destruct (Z.of_nat (Datatypes.length ds) <=? n).
    + rewrite decimal_points_list_app, H0, Hz. lia.
    + destruct (0 <? n).
      * rewrite decimal_points_list_app, decimal_points_cons, Hf, Hs.
        simpl. lia.
      * rewrite !decimal_points_cons, decimal_points_list_app, H0, Hz.
        simpl. lia.
  - destruct (Z.of_nat (Datatypes.length ds) =? 1).
    + rewrite decimal_points_list_app, H0, He. lia.
    + rewrite decimal_points_list_app, decimal_points_cons,
        decimal_points_list_app, Hf, Hs, He.
      simpl. lia.
Qed.

(** [toString] never prints two decimal points. *)
Lemma toString_points x : (decimal_points (toString x) <= 1)%nat.
Proof.
  destruct x as [s|[|]| |sx m e].
  1-4: unfold toString, decimal_points; simpl; lia.
  unfold toString.
  destruct (shortest_decimal_shape m e) as (c & r & E & _ & Hd).
  destruct (shortest_decimal m e) as [ds n]. simpl in E. subst ds.
  pose proof (format_decimal_points (c :: r) n Hd) as H.
  destruct sx; [|exact H].
  change (["-"] ++ format_decimal (c :: r) n)%list
    with ("-" :: format_decimal (c :: r) n).
  rewrite decimal_points_cons. simpl. exact H.
Qed.

(** The first character of a formatted decimal is a digit, and the
    whole is not ["0"]. *)
Lemma format_decimal_head c (r : list ascii) n :
  is_digit c = true -> Ascii.eqb c "0" = false ->
  exists c' r',
    format_decimal (c :: r) n = c' :: r' /\
    is_digit c' = true /\
    (Ascii.eqb c' "0" = false \/ r' <> []).
Proof.
  intros Hd Hc. unfold format_decimal.
  destruct ((-5 <=? n) && (n <=? 21)).
  - destruct (Z.of_nat (Datatypes.length (c :: r)) <=? n).
    + simpl. eexists; eexists. split; [reflexivity|]. auto.
    + destruct (0 <? n) eqn:Hn.
      * apply Z.ltb_lt in Hn.
        destruct (Z.to_nat n) as [|k] eqn:Ek; [lia|].
        simpl. eexists; eexists. split; [reflexivity|]. auto.
      * eexists; eexists. split; [reflexivity|].
        split; [reflexivity|]. right. discriminate.
  - destruct (Z.of_nat (Datatypes.length (c :: r)) =? 1);
      simpl; eexists; eexists; (split; [reflexivity|]); auto.
Qed.

(** What [toString] prints for a number other than NaN is a numeric
    display. *)
Lemma toString_numeric x :
  isNaN x = false -> numeric_display (toString x) = true.
Proof.
  destruct x as [s|[|]| |sx m e]; intros Hx; try reflexivity;
    try discriminate Hx.
  unfold toString.
  destruct (shortest_decimal_shape m e) as (c & r & E & Hc & Hd).
  destruct (shortest_decimal m e) as [ds n]. simpl in E. subst ds.
  destruct (format_decimal_head c r n (Forall_inv Hd) Hc)
    as (c' & r' & E' & Hd' & Hnz).
  rewrite E'. destruct sx; simpl.
  - rewrite Hd'. simpl. apply negb_true_iff.
    destruct Hnz as [Hnz|Hnz].
    + rewrite Hnz. reflexivity.
    + destruct r'; [congruence|].
      destruct (Ascii.eqb c' "0"); reflexivity.
  - destruct c' as [[|] [|] [|] [|] [|] [|] [|] [|]];
      try discriminate Hd'; reflexivity.
Qed.

End TextFacts.
Export TextFacts.

(* ================================================================== *)
(** ** Facts about the handlers *)

Module HandlerFacts.

(** The dispatcher sends each token to its handler. *)
Lemma apply_token_eq s t :
  apply_token s t =
  match t with
  | Digit d => handleDigitPress (digit_label d) s
  | Dot => handleDotPress s
  | Clear => handleClearPress s
  | ToggleSign => handleToggleSignPress s
  | Percent => handlePercentPress s
  | OperatorKey op => handleOperatorPress op s
  | Equals => handleEqualsPress s
  end.
Proof.
  destruct t as [d| | | | |op|]; try reflexivity.
  - destruct d; reflexivity.
  - destruct op; reflexivity.
Qed.

Lemma setDisplayValue_same s : setDisplayValue (displayValue s) s = s.
Proof. destruct s; reflexivity. Qed.

Lemma reachable_run ts : reachable (run ts initialState).
Proof.
  unfold run. generalize initialState, reachable_init.
  induction ts as [|t ts IH]; intros s Hs; simpl; [exact Hs|].
  apply IH. now constructor.
Qed.

Lemma digit_label_points d : decimal_points (digit_label d) = 0%nat.
Proof. destruct d; reflexivity. Qed.

Lemma digit_label_numeric d : numeric_display (digit_label d) = true.
Proof. destruct d; reflexivity. Qed.

(** *** Shape of numeric displays *)

Lemma startsWith_minus c (b : string) :
  startsWith (String c b) "-" = Ascii.eqb c "-".
Proof.
  unfold startsWith.
  change (String.prefix "-" (String c b))
    with (if ascii_dec "-" c then String.prefix "" b else false).
  destruct (ascii_dec "-" c) as [<-|Hne].
  - destruct b; reflexivity.
  - symmetry. apply Ascii.eqb_neq. congruence.
Qed.

Lemma numeric_display_cons c (b : string) :
  numeric_display (String c b) =
  if Ascii.eqb c "-" then body_start b && negb (b =? "0")
  else body_start (String c b).
Proof.
  destruct c as [[|] [|] [|] [|] [|] [|] [|] [|]]; reflexivity.
Qed.

Lemma body_start_not_minus (v : string) :
  body_start v = true -> startsWith v "-" = false.
Proof.
  destruct v as [|c b]; [discriminate|].
  rewrite startsWith_minus. simpl.
  destruct c as [[|] [|] [|] [|] [|] [|] [|] [|]];
    intros H; try discriminate H; reflexivity.
Qed.

Lemma body_start_numeric (v : string) :
  body_start v = true -> numeric_display v = true.
Proof.
  intros H. pose proof (body_start_not_minus v H) as Hm.
  destruct v as [|c b]; [discriminate|].
  rewrite numeric_display_cons.
  rewrite startsWith_minus in Hm. now rewrite Hm.
Qed.

Lemma body_start_not_error (v : string) :
  body_start v = true -> v <> "Error".
Proof. intros H ->. discriminate H. Qed.

Lemma numeric_not_error (v : string) :
  numeric_display v = true -> v <> "Error".
Proof. intros H ->. discriminate H. Qed.

Lemma body_start_append (v w : string) :
  body_start v = true -> body_start (v ++ w) = true.
Proof. destruct v; [discriminate|]. trivial. Qed.

Lemma numeric_display_append (v w : string) :
  numeric_display v = true -> numeric_display (v ++ w) = true.
Proof.
  destruct v as [|c b]; [discriminate|].
  change (String c b ++ w) with (String c (b ++ w)).
  rewrite !numeric_display_cons.
  destruct (Ascii.eqb c "-"); [|trivial].
  intros H. apply andb_true_iff in H. destruct H as [Hb Hz].
  rewrite (body_start_append b w Hb). simpl.
  apply negb_true_iff, String.eqb_neq.
  apply negb_true_iff, String.eqb_neq in Hz.
  destruct b as [|c' [|c'' b]]; [discriminate Hb| |discriminate].
  destruct w; simpl; [exact Hz|discriminate].
Qed.

(** A numeric display that starts with a minus sign. *)
Lemma numeric_minus (v : string) :
  numeric_display v = true -> startsWith v "-" = true ->
  exists b, v = String "-" b /\ body_start b = true /\ b <> "0".
Proof.
  destruct v as [|c b]; [discriminate|].
  rewrite numeric_display_cons, startsWith_minus.
  intros H Hc. rewrite Hc in H.
  apply Ascii.eqb_eq in Hc. subst c.
  apply andb_true_iff in H. destruct H as [Hb Hz].
  apply negb_true_iff, String.eqb_neq in Hz.
  now exists b.
Qed.

(** A numeric display that does not. *)
Lemma numeric_plain (v : string) :
  numeric_display v = true -> startsWith v "-" = false ->
  body_start v = true.
Proof.
  destruct v as [|c b]; [discriminate|].
  rewrite numeric_display_cons, startsWith_minus.
  intros H Hc. now rewrite Hc in H.
Qed.

Lemma display_of_result_cases x :
  (isNaN x = true /\ display_of_result x = "Error") \/
  (isNaN x = false /\ display_of_result x = toString x).
Proof.
  unfold display_of_result. destruct (isNaN x); auto.
Qed.

Lemma display_of_result_points x :
  (decimal_points (display_of_result x) <= 1)%nat.
Proof.
  destruct (display_of_result_cases x) as [[_ ->]|[_ ->]].
  - unfold decimal_points. simpl. lia.
  - apply toString_points.
Qed.

(** *** The invariant of the reachable states *)

Lemma well_formed_digit d s :
  well_formed s -> well_formed (handleDigitPress (digit_label d) s).
Proof.
  unfold well_formed, handleDigitPress. intros H.
  destruct (isNewEntry s) eqn:En; simpl.
  - right. apply digit_label_numeric.
  - destruct (displayValue s =? "0"); simpl.
    + right. apply digit_label_numeric.
    + right. destruct H as [[_ H]|H]; [congruence|].
      now apply numeric_display_append.
Qed.

Lemma well_formed_dot s : well_formed s -> well_formed (handleDotPress s).
Proof.
  unfold well_formed, handleDotPress. intros H.
  destruct (isNewEntry s) eqn:En; simpl.
  - right. reflexivity.
  - destruct H as [[_ H]|H]; [congruence|].
    destruct (includes (displayValue s) "."); simpl; right; trivial.
    now apply numeric_display_append.
Qed.

Lemma well_formed_operator op s :
  well_formed s -> well_formed (handleOperatorPress op s).
Proof.
  unfold well_formed, handleOperatorPress. intros H.
  destruct (previousValue s) as [prev|], (operator s) as [op'|],
    (isNewEntry s) eqn:En; simpl;
    try (destruct H as [[H _]|H]; auto; fail).
  destruct (display_of_result_cases
              (performCalculation op' prev (parseFloat (displayValue s))))
    as [[_ ->]|[Hx ->]]; auto.
  right. now apply toString_numeric.
Qed.

Lemma well_formed_equals s :
  well_formed s -> well_formed (handleEqualsPress s).
Proof.
  unfold handleEqualsPress. intros H.
  destruct (operator s) as [op|], (previousValue s) as [prev|]; trivial.
  unfold well_formed. simpl.
  destruct (display_of_result_cases
              (performCalculation op prev (parseFloat (displayValue s))))
    as [[_ ->]|[Hx ->]]; auto.
  right. now apply toString_numeric.
Qed.

Lemma well_formed_toggle s :
  well_formed s -> well_formed (handleToggleSignPress s).
Proof.
  unfold well_formed, handleToggleSignPress. intros H.
  destruct (String.eqb_spec (displayValue s) "0") as [E0|N0]; simpl;
    [exact H|].
  destruct (String.eqb_spec (displayValue s) "Error") as [Ee|Ne]; simpl;
    [exact H|].
  destruct H as [[H _]|H]; [contradiction|]. right.
  destruct (startsWith (displayValue s) "-") eqn:Em; simpl.
  - destruct (numeric_minus _ H Em) as (b & -> & Hb & _).
    simpl. now apply body_start_numeric.
  - pose proof (numeric_plain _ H Em) as Hb.
    rewrite Hb. simpl. apply negb_true_iff, String.eqb_neq, N0.
Qed.

(** A hundredth of a number is a number. *)
Lemma div_hundred_not_nan v :
  isNaN v = false -> isNaN (div v (of_Z 100)) = false.
Proof.
  intros H.
  pose proof (performCalculation_nan Divide v (of_Z 100)) as P.
  remember (of_Z 100) as h eqn:E. vm_compute in E. subst h.
  cbn [performCalculation is_zero] in P. rewrite P.
  unfold nan_cause, named_cause, invalid_infinite. rewrite H.
  cbn [isNaN is_zero is_infinite orb]. apply andb_false_r.
Qed.

Lemma well_formed_percent s :
  well_formed s -> well_formed (handlePercentPress s).
Proof.
  unfold well_formed, handlePercentPress. intros H.
  destruct (isNaN (parseFloat (displayValue s))) eqn:Hn; simpl;
    [exact H|].
  right. now apply toString_numeric, div_hundred_not_nan.
Qed.

Lemma well_formed_step s t :
  well_formed s -> well_formed (apply_token s t).
Proof.
  rewrite apply_token_eq. destruct t as [d| | | | |op|].
  - apply well_formed_digit.
  - apply well_formed_dot.
  - intros _. right. reflexivity.
  - apply well_formed_toggle.
  - apply well_formed_percent.
  - apply well_formed_operator.
  - apply well_formed_equals.
Qed.

Lemma reachable_well_formed s : reachable s -> well_formed s.
Proof.
  induction 1 as [|s t _ IH].
  - right. reflexivity.
  - now apply well_formed_step.
Qed.

(** In a reachable state an error display comes with the new-entry
    flag. *)
Lemma reachable_error_new_entry s :
  reachable s -> displayValue s = "Error" -> isNewEntry s = true.
Proof.
  intros Hr He. destruct (reachable_well_formed s Hr) as [[_ H]|H].
  - exact H.
  - now apply numeric_not_error in H.
Qed.

(** *** Decimal points, press by press *)

Lemma decimal_points_step s t :
  (decimal_points (displayValue s) <= 1)%nat ->
  (decimal_points (displayValue (apply_token s t)) <= 1)%nat.
Proof.
  intros H. rewrite apply_token_eq. destruct t as [d| | | | |op|].
  - unfold handleDigitPress.
    destruct (isNewEntry s || (displayValue s =? "0")); simpl.
    + rewrite digit_label_points. lia.
    + unfold decimal_points in *.
      rewrite count_char_append.
      fold (decimal_points (digit_label d)).
      rewrite digit_label_points. lia.
  - unfold handleDotPress. destruct (isNewEntry s); simpl.
    + unfold decimal_points. simpl. lia.
    + destruct (includes (displayValue s) ".") eqn:Ei; simpl; [exact H|].
      apply includes_dot_false in Ei.
      unfold decimal_points in *. rewrite count_char_append, Ei.
      simpl. lia.
  - unfold decimal_points. simpl. lia.
  - unfold handleToggleSignPress.
    destruct ((displayValue s =? "0") || (displayValue s =? "Error"));
      simpl; [exact H|].
    destruct (startsWith (displayValue s) "-"); simpl.
    + pose proof (slice1_points (displayValue s)). lia.
    + exact H.
  - unfold handlePercentPress.
    destruct (isNaN (parseFloat (displayValue s))); simpl; [exact H|].
    apply toString_points.
  - unfold handleOperatorPress.
    destruct (previousValue s), (operator s), (isNewEntry s); simpl;
      trivial.
    apply display_of_result_points.
  - unfold handleEqualsPress.
    destruct (operator s), (previousValue s); simpl; trivial.
    apply display_of_result_points.
Qed.

Lemma reachable_decimal_points s :
  reachable s -> (decimal_points (displayValue s) <= 1)%nat.
Proof.
  induction 1 as [|s t _ IH].
  - unfold decimal_points. simpl. lia.
  - now apply decimal_points_step.
Qed.

(** *** Pending operator and pending operand *)

Lemma paired_step s t :
  (operator s = None <-> previousValue s = None) ->
  (operator (apply_token s t) = None <->
   previousValue (apply_token s t) = None).
Proof.
  intros H. rewrite apply_token_eq. destruct t as [d| | | | |op|].
  - unfold handleDigitPress.
    destruct (isNewEntry s || (displayValue s =? "0")); exact H.
  - unfold handleDotPress.
    destruct (isNewEntry s); [exact H|].
    destruct (includes (displayValue s) "."); exact H.
  - simpl. split; reflexivity.
  - unfold handleToggleSignPress.
    destruct ((displayValue s =? "0") || (displayValue s =? "Error"));
      [exact H|].
    destruct (startsWith (displayValue s) "-"); exact H.
  - unfold handlePercentPress.
    destruct (isNaN (parseFloat (displayValue s))); exact H.
  - unfold handleOperatorPress.
    destruct (previousValue s), (operator s), (isNewEntry s); simpl;
      split; discriminate.
  - unfold handleEqualsPress.
    destruct (operator s) eqn:Eo, (previousValue s) eqn:Ep; simpl;
      rewrite ?Eo, ?Ep; try exact H.
    split; reflexivity.
Qed.

Lemma reachable_paired s :
  reachable s -> (operator s = None <-> previousValue s = None).
Proof.
  induction 1 as [|s t _ IH]; [simpl; tauto|].
  now apply paired_step.
Qed.

(** *** Where an error display comes from *)

Lemma display_of_result_error x :
  display_of_result x = "Error" -> isNaN x = true.
Proof.
  destruct (display_of_result_cases x) as [[H _]|[H ->]]; [trivial|].
  intros E. now apply toString_numeric, numeric_not_error in H.
Qed.

Lemma error_only_from_nan_cause s t :
  reachable s -> error_only_from nan_cause s t.
Proof.
  intros Hr He.
  pose proof (reachable_well_formed s Hr) as Hw.
  pose proof (reachable_error_new_entry _ (reachable_step s t Hr) He)
    as Hn.
  revert He Hn. rewrite apply_token_eq.
  destruct t as [d| | | | |op|].
  - unfold handleDigitPress.
    destruct (isNewEntry s) eqn:En; simpl.
    + intros _ Hn; discriminate Hn.
    + destruct (displayValue s =? "0"); simpl; intros _ Hn; congruence.
  - unfold handleDotPress.
    destruct (isNewEntry s) eqn:En; simpl.
    + intros _ Hn; discriminate Hn.
    + destruct (includes (displayValue s) "."); simpl; intros He Hn;
        [now left|congruence].
  - simpl. intros He; discriminate He.
  - unfold handleToggleSignPress.
    destruct ((displayValue s =? "0") || (displayValue s =? "Error"));
      simpl; [now left|].
    destruct Hw as [[Hw _]|Hw]; [now left|].
    destruct (startsWith (displayValue s) "-") eqn:Em; simpl.
    + destruct (numeric_minus _ Hw Em) as (b & -> & Hb & _). simpl.
      intros He. now apply body_start_not_error in Hb.
    + intros He; discriminate He.
  - unfold handlePercentPress.
    destruct (isNaN (parseFloat (displayValue s))) eqn:Ev; simpl;
      [now left|].
    intros He _. exfalso.
    apply div_hundred_not_nan, toString_numeric, numeric_not_error in Ev.
    contradiction.
  - unfold handleOperatorPress, pending_evaluation.
    destruct (previousValue s) as [prev|], (operator s) as [op'|],
      (isNewEntry s); simpl; try (now left).
    intros He _. right.
    exists op', prev, (parseFloat (displayValue s)).
    apply display_of_result_error in He.
    repeat split; trivial. now rewrite <- performCalculation_nan.
  - unfold handleEqualsPress, pending_evaluation.
    destruct (operator s) as [op'|], (previousValue s) as [prev|];
      simpl; try (now left).
    intros He _. right.
    exists op', prev, (parseFloat (displayValue s)).
    apply display_of_result_error in He.
    repeat split; trivial. now rewrite <- performCalculation_nan.
Qed.

End HandlerFacts.
Export HandlerFacts.

(* ================================================================== *)
(** ** The built-ins on known values *)

Example parseFloat_samples :
  parseFloat "0.1" = S754_finite false 7205759403792794 (-56) /\
  parseFloat "-0." = S754_zero true /\
  parseFloat "Error" = NaN /\
  parseFloat "1e-9." = parseFloat "1e-9" /\
  parseFloat "9007199254740993" = parseFloat "9007199254740992" /\
  parseFloat "1.7976931348623159e308" = S754_infinity false.
Proof. vm_compute. repeat split. Qed.

Example toString_samples :
  toString (add (parseFloat "0.1") (parseFloat "0.2"))
  = "0.30000000000000004" /\
  toString (mul (parseFloat "4.35") (of_Z 100)) = "434.99999999999994" /\
  toString (parseFloat "123456789012345678901") = "123456789012345680000" /\
  toString (parseFloat "1e21") = "1e+21" /\
  toString (parseFloat "0.000001") = "0.000001" /\
  toString (parseFloat "0.00000015") = "1.5e-7" /\
  toString (parseFloat "5e-324") = "5e-324" /\
  toString (S754_zero true) = "0".
Proof. vm_compute. repeat split. Qed.

(* ================================================================== *)
(** ** The properties of the specification *)

(** *** Scenarios *)

(** C1. From the initial state, the keys 3 + 4 + 2 = leave ["9"] on
    the display: the second press of [+] evaluates the pending 3 + 4,
    shows ["7"] and keeps 7 as the pending operand, and [=] evaluates
    7 + 2. *)
Theorem chained_operator_evaluation :
  let after_second_operator :=
    run [Digit d3; OperatorKey Add; Digit d4; OperatorKey Add] initialState in
  displayValue after_second_operator = "7" /\
  previousValue after_second_operator = Some (of_Z 7) /\
  operator after_second_operator = Some Add /\
  displayValue (run [Digit d2; Equals] after_second_operator) = "9" /\
  displayValue
    (run [Digit d3; OperatorKey Add; Digit d4; OperatorKey Add;
          Digit d2; Equals] initialState) = "9".
Proof.
  vm_compute. repeat split.
Qed.

(** C2. Dividing by zero gives NaN whatever the dividend (for either
    signed zero), and from the initial state the keys 5 ÷ 0 = leave
    ["Error"] on the display. *)
Theorem divide_by_zero_displays_error :
  (forall (a : number) (sg : bool),
      isNaN (performCalculation Divide a (S754_zero sg)) = true) /\
  of_Z 0 = S754_zero false /\
  displayValue
    (run [Digit d5; OperatorKey Divide; Digit d0; Equals] initialState)
  = "Error".
Proof.
  split; [|split].
  - intros a sg. reflexivity.
  - reflexivity.
  - vm_compute. reflexivity.
Qed.

(** *** Error display *)

(** C3. In a reachable state that shows ["Error"], a digit key
    replaces the whole display by that digit. *)
Theorem digit_replaces_error (s : CalculatorState) (d : digit) :
  reachable s ->
  displayValue s = "Error" ->
  displayValue (apply_token s (Digit d)) = digit_label d.
Proof.
  intros Hr He.
  rewrite apply_token_eq. unfold handleDigitPress.
  now rewrite (reachable_error_new_entry s Hr He).
Qed.

Lemma digit_replaces_error_witness :
  let s := run [Digit d5; OperatorKey Divide; Digit d0; Equals] initialState in
  reachable s /\ displayValue s = "Error" /\
  displayValue (apply_token s (Digit d7)) = "7".
Proof.
  split; [apply reachable_run|].
  split; [vm_compute; reflexivity|].
  apply (digit_replaces_error _ d7).
  - apply reachable_run.
  - vm_compute; reflexivity.
Defined.

(** C10. In a reachable state, an ["Error"] display implies that the
    new-entry flag is set; hence the dot key pressed on an error
    yields ["0."] and does not append to ["Error"]. *)
Theorem error_implies_new_entry (s : CalculatorState) :
  reachable s ->
  displayValue s = "Error" ->
  isNewEntry s = true /\ displayValue (apply_token s Dot) = "0.".
Proof.
  intros Hr He.
  pose proof (reachable_error_new_entry s Hr He) as Hn.
  split; [exact Hn|].
  rewrite apply_token_eq. unfold handleDotPress. now rewrite Hn.
Qed.

Lemma error_implies_new_entry_witness :
  let s := run [Digit d5; OperatorKey Divide; Digit d0; Equals; ToggleSign;
                Percent; OperatorKey Add] initialState in
  reachable s /\ displayValue s = "Error" /\
  isNewEntry s = true /\ displayValue (apply_token s Dot) = "0.".
Proof.
  split; [apply reachable_run|].
  split; [vm_compute; reflexivity|].
  apply error_implies_new_entry.
  - apply reachable_run.
  - vm_compute; reflexivity.
Defined.

(** C6, as stated, fails.  Three hundred and ten nines overflow to
    [Infinity]; the keys 99…9 - 99…9 = then compute
    [Infinity - Infinity], which is NaN, and show ["Error"], although
    the operator is not a division and neither operand is NaN. *)
Lemma error_without_named_cause :
  let s :=
    run (repeat (Digit d9) 310 ++ [OperatorKey Subtract]
           ++ repeat (Digit d9) 310) initialState in
  reachable s /\
  displayValue s <> "Error" /\
  displayValue (apply_token s Equals) = "Error" /\
  pending_evaluation s Equals
  = Some (Subtract, S754_infinity false, S754_infinity false) /\
  named_cause Subtract (S754_infinity false) (S754_infinity false) = false /\
  ~ error_only_from named_cause s Equals.
Proof.
  intros s.
  assert (Hd : displayValue (apply_token s Equals) = "Error")
    by (vm_compute; reflexivity).
  assert (Hp : pending_evaluation s Equals
               = Some (Subtract, S754_infinity false, S754_infinity false))
    by (vm_compute; reflexivity).
  assert (Hs : displayValue s <> "Error").
  { intros E. vm_compute in E. discriminate E. }
  split; [apply reachable_run|].
  repeat (split; trivial).
  intros H. destruct (H Hd) as [E|(op & a & b & Hev & _ & Hc)].
  - contradiction.
  - rewrite Hp in Hev. injection Hev as <- <- <-. discriminate Hc.
Qed.

(** C6, amended.  In a reachable state, a press puts ["Error"] on a
    display that did not show it only by a calculation (on an operator
    key with a pending operation and a fresh operand, or on the equals
    key with a pending operation) whose result is NaN, and the result
    is NaN only for a division by zero, for an operand that is already
    NaN, or for an invalid operation on infinities (opposite
    infinities added, like infinities subtracted, zero times infinity,
    infinity divided by infinity). *)
Theorem error_only_from_nan_result (s : CalculatorState) (t : Token) :
  reachable s ->
  displayValue (apply_token s t) = "Error" ->
  displayValue s = "Error" \/
  exists op a b,
    pending_evaluation s t = Some (op, a, b) /\
    isNaN (performCalculation op a b) = true /\
    (isNaN a || isNaN b
     || match op with Divide => is_zero b | _ => false end
     || invalid_infinite op a b) = true.
Proof.
  intros Hr He. exact (error_only_from_nan_cause s t Hr He).
Qed.

Lemma error_only_from_nan_result_witness :
  let s := run [Digit d5; OperatorKey Divide; Digit d0] initialState in
  reachable s /\
  displayValue (apply_token s Equals) = "Error" /\
  (displayValue s = "Error" \/
   exists op a b,
     pending_evaluation s Equals = Some (op, a, b) /\
     isNaN (performCalculation op a b) = true /\
     (isNaN a || isNaN b
      || match op with Divide => is_zero b | _ => false end
      || invalid_infinite op a b) = true).
Proof.
  split; [apply reachable_run|].
  split; [vm_compute; reflexivity|].
  apply error_only_from_nan_result.
  - apply reachable_run.
  - vm_compute; reflexivity.
Defined.

(** *** Invariants *)

(** C4. A reachable state shows at most one decimal point, and a
    press never takes a display with at most one decimal point to a
    display with more. *)
Theorem at_most_one_decimal_point (s : CalculatorState) (t : Token) :
  (reachable s -> (decimal_points (displayValue s) <= 1)%nat) /\
  ((decimal_points (displayValue s) <= 1)%nat ->
   (decimal_points (displayValue (apply_token s t)) <= 1)%nat).
Proof.
  split.
  - apply reachable_decimal_points.
  - apply decimal_points_step.
Qed.

Lemma at_most_one_decimal_point_witness :
  let s := run [Digit d1; Dot; Digit d5] initialState in
  reachable s /\
  (decimal_points (displayValue s) <= 1)%nat /\
  (decimal_points (displayValue (apply_token s Dot)) <= 1)%nat.
Proof.
  intros s.
  destruct (at_most_one_decimal_point s Dot) as [Hreach Hstep].
  split; [apply reachable_run|].
  split.
  - apply Hreach, reachable_run.
  - apply Hstep. vm_compute. lia.
Defined.

(** C5. In a reachable state the pending operator is absent exactly
    when the pending operand is.  Every press keeps it so: an operator
    key sets the operator and leaves an operand set, the clear key
    clears both, the equals key clears both or changes nothing, and
    the other keys touch neither. *)
Theorem operator_absent_iff_previous_absent
  (s : CalculatorState) (t : Token) :
  (reachable s -> (operator s = None <-> previousValue s = None)) /\
  ((operator s = None <-> previousValue s = None) ->
   (operator (apply_token s t) = None <->
    previousValue (apply_token s t) = None)) /\
  match t with
  | OperatorKey op =>
      operator (apply_token s t) = Some op /\
      previousValue (apply_token s t) <> None
  | Clear =>
      operator (apply_token s t) = None /\
      previousValue (apply_token s t) = None
  | Equals =>
      (operator (apply_token s t) = None /\
       previousValue (apply_token s t) = None) \/
      apply_token s t = s
  | _ =>
      operator (apply_token s t) = operator s /\
      previousValue (apply_token s t) = previousValue s
  end.
Proof.
  split; [apply reachable_paired|].
  split; [apply paired_step|].
  rewrite apply_token_eq. destruct t as [d| | | | |op|].
  - unfold handleDigitPress.
    destruct (isNewEntry s || (displayValue s =? "0")); split; reflexivity.
  - unfold handleDotPress.
    destruct (isNewEntry s); [split; reflexivity|].
    destruct (includes (displayValue s) "."); split; reflexivity.
  - split; reflexivity.
  - unfold handleToggleSignPress.
    destruct ((displayValue s =? "0") || (displayValue s =? "Error"));
      [split; reflexivity|].
    destruct (startsWith (displayValue s) "-"); split; reflexivity.
  - unfold handlePercentPress.
    destruct (isNaN (parseFloat (displayValue s))); split; reflexivity.
  - unfold handleOperatorPress.
    destruct (previousValue s), (operator s), (isNewEntry s); simpl;
      split; (reflexivity || discriminate).
  - unfold handleEqualsPress.
    destruct (operator s), (previousValue s); simpl; auto.
Qed.

Lemma operator_absent_iff_previous_absent_witness :
  let s := run [Digit d3; OperatorKey Add; Digit d4] initialState in
  reachable s /\
  (operator s = None <-> previousValue s = None) /\
  (operator (apply_token s (OperatorKey Multiply)) = None <->
   previousValue (apply_token s (OperatorKey Multiply)) = None).
Proof.
  intros s.
  destruct (operator_absent_iff_previous_absent s (OperatorKey Multiply))
    as (Hreach & Hstep & _).
  split; [apply reachable_run|].
  split.
  - apply Hreach, reachable_run.
  - apply Hstep. vm_compute. split; discriminate.
Defined.

(** *** Sign toggle *)

(** C7. In a reachable state whose display is neither ["0"] nor
    ["Error"], the sign key strips a leading minus sign if there is
    one and prepends one otherwise, and pressed twice it restores the
    display; on ["0"] and on ["Error"] it changes nothing. *)
Theorem toggle_sign_round_trip (s : CalculatorState) :
  reachable s ->
  (displayValue s = "0" \/ displayValue s = "Error" ->
   apply_token s ToggleSign = s) /\
  (displayValue s <> "0" -> displayValue s <> "Error" ->
   displayValue (apply_token s ToggleSign)
   = (if startsWith (displayValue s) "-" then slice1 (displayValue s)
      else "-" ++ displayValue s) /\
   displayValue (apply_token (apply_token s ToggleSign) ToggleSign)
   = displayValue s).
Proof.
  intros Hr. rewrite !apply_token_eq. split.
  - unfold handleToggleSignPress.
    intros [E|E]; rewrite E; simpl; rewrite <- E;
      apply setDisplayValue_same.
  - intros H0 He.
    assert (Hone : displayValue (handleToggleSignPress s)
                   = (if startsWith (displayValue s) "-"
                      then slice1 (displayValue s)
                      else "-" ++ displayValue s)).
    { unfold handleToggleSignPress.
      apply String.eqb_neq in H0, He. rewrite H0, He. simpl.
      destruct (startsWith (displayValue s) "-"); reflexivity. }
    split; [exact Hone|].
    destruct (reachable_well_formed s Hr) as [[Hw _]|Hw]; [contradiction|].
    unfold handleToggleSignPress at 1. rewrite Hone.
    destruct (startsWith (displayValue s) "-") eqn:Em.
    + destruct (numeric_minus _ Hw Em) as (b & Eb & Hb & Hz).
      rewrite Eb. simpl slice1.
      apply String.eqb_neq in Hz. rewrite Hz.
      pose proof (body_start_not_error b Hb) as Hne.
      apply String.eqb_neq in Hne. rewrite Hne.
      rewrite (body_start_not_minus b Hb). reflexivity.
    + destruct (displayValue s) as [|c v]; reflexivity.
Qed.

Lemma toggle_sign_round_trip_witness :
  let s :=
    run [Digit d8; OperatorKey Subtract; Digit d9; Digit d3; Dot; Digit d5;
         Equals] initialState in
  reachable s /\ displayValue s = "-85.5" /\
  displayValue (apply_token s ToggleSign) = "85.5" /\
  displayValue (apply_token (apply_token s ToggleSign) ToggleSign) = "-85.5".
Proof.
  intros s.
  assert (Hr : reachable s) by apply reachable_run.
  assert (Hv : displayValue s = "-85.5") by (vm_compute; reflexivity).
  destruct (toggle_sign_round_trip s Hr) as [_ H].
  destruct H as [Hone Htwo].
  - rewrite Hv. discriminate.
  - rewrite Hv. discriminate.
  - rewrite Hv in Hone, Htwo. auto.
Defined.

(** *** Percent *)

(** C8. The percent key changes the display only: it leaves it alone
    when it does not parse as a number, and otherwise shows the
    decimal string of the parsed value divided by 100; the pending
    operand and operator stay as they are.  From the initial state the
    keys 5 0 % show ["0.5"]. *)
Theorem percent_scales_display (s : CalculatorState) :
  let value := parseFloat (displayValue s) in
  apply_token s Percent
  = setDisplayValue
      (if isNaN value then displayValue s
       else toString (div value (of_Z 100))) s /\
  (if isNaN value then apply_token s Percent = s : Prop
   else displayValue (apply_token s Percent)
        = toString (div value (of_Z 100))) /\
  previousValue (apply_token s Percent) = previousValue s /\
  operator (apply_token s Percent) = operator s /\
  displayValue (run [Digit d5; Digit d0; Percent] initialState) = "0.5".
Proof.
  intros value. rewrite apply_token_eq.
  unfold handlePercentPress. fold value.
  destruct (isNaN value); repeat split;
    try apply setDisplayValue_same.
Qed.

(** C9, as stated, fails.  After the key 0 the display is ["0"] with
    the new-entry flag cleared; percent leaves ["0"] and the flag, and
    the key 5 then replaces the display by ["5"]: it is not appended
    to give ["05"]. *)
Lemma percent_then_digit_replaces_zero :
  let s := run [Digit d0] initialState in
  reachable s /\
  isNewEntry s = false /\
  displayValue (apply_token s Percent) = "0" /\
  displayValue (apply_token (apply_token s Percent) (Digit d5)) = "5" /\
  displayValue (apply_token (apply_token s Percent) (Digit d5))
  <> displayValue (apply_token s Percent) ++ digit_label d5.
Proof.
  split; [apply reachable_run|].
  vm_compute. repeat split. discriminate.
Qed.

(** C9, amended.  The percent key leaves the new-entry flag as it is;
    when it is pressed with the flag cleared, a following digit key
    appends its digit to the display percent left, unless that display
    is exactly ["0"], which the digit replaces. *)
Theorem percent_keeps_entry_mode (s : CalculatorState) (d : digit) :
  isNewEntry (apply_token s Percent) = isNewEntry s /\
  (isNewEntry s = false ->
   displayValue (apply_token (apply_token s Percent) (Digit d))
   = if displayValue (apply_token s Percent) =? "0" then digit_label d
     else displayValue (apply_token s Percent) ++ digit_label d).
Proof.
  assert (Hflag : isNewEntry (apply_token s Percent) = isNewEntry s).
  { rewrite apply_token_eq. unfold handlePercentPress.
    destruct (isNaN (parseFloat (displayValue s))); reflexivity. }
  split; [exact Hflag|].
  intros Hn. rewrite (apply_token_eq _ (Digit d)).
  unfold handleDigitPress. rewrite Hflag, Hn. simpl.
  destruct (displayValue (apply_token s Percent) =? "0"); reflexivity.
Qed.

Lemma percent_keeps_entry_mode_witness :
  let s := run [Digit d5; Digit d0] initialState in
  isNewEntry s = false /\
  isNewEntry (apply_token s Percent) = false /\
  displayValue (apply_token (apply_token s Percent) (Digit d7)) = "0.57".
Proof.
  intros s.
  assert (Hn : isNewEntry s = false) by reflexivity.
  destruct (percent_keeps_entry_mode s d7) as [Hflag Hdigit].
  split; [exact Hn|].
  split; [rewrite Hflag; exact Hn|].
  rewrite (Hdigit Hn). vm_compute. reflexivity.
Defined.

(* ================================================================== *)
(** ** Further properties of the screen *)

Module PadFacts.

Ltac pad_member := simpl; repeat (first [left; reflexivity | right]).

Ltac pad_token :=
  first
    [ exists (Digit d0); reflexivity | exists (Digit d1); reflexivity
    | exists (Digit d2); reflexivity | exists (Digit d3); reflexivity
    | exists (Digit d4); reflexivity | exists (Digit d5); reflexivity
    | exists (Digit d6); reflexivity | exists (Digit d7); reflexivity
    | exists (Digit d8); reflexivity | exists (Digit d9); reflexivity
    | exists Dot; reflexivity | exists Clear; reflexivity
    | exists ToggleSign; reflexivity | exists Percent; reflexivity
    | exists Equals; reflexivity
    | exists (OperatorKey Add); reflexivity
    | exists (OperatorKey Subtract); reflexivity
    | exists (OperatorKey Multiply); reflexivity
    | exists (OperatorKey Divide); reflexivity ].

Ltac pick_operator :=
  left;
  first [ exists Add; reflexivity | exists Subtract; reflexivity
        | exists Multiply; reflexivity | exists Divide; reflexivity ].

Lemma label_of_on_pad t : In (label_of t) (List.concat buttonRows).
Proof.
  destruct t as [d| | | | |op|]; [destruct d| | | | |destruct op|];
    pad_member.
Qed.

Lemma on_pad_label_of label :
  In label (List.concat buttonRows) -> exists t, label = label_of t.
Proof.
  simpl. intros H.
  repeat (destruct H as [<-|H]; [pad_token|]).
  contradiction.
Qed.

Lemma is_digit_label_token label :
  is_digit_label label = true -> exists d, label = digit_label d.
Proof.
  destruct label as [|c [|c' r]]; try discriminate.
  destruct c as [[|] [|] [|] [|] [|] [|] [|] [|]]; intros H;
    try discriminate H;
    first [ now exists d0 | now exists d1 | now exists d2 | now exists d3
          | now exists d4 | now exists d5 | now exists d6 | now exists d7
          | now exists d8 | now exists d9 ].
Qed.

(** A label the dispatcher acts on is the label of a key. *)
Lemma handleButtonPress_cases label s :
  (exists t, label = label_of t) \/ handleButtonPress label s = s.
Proof.
  unfold handleButtonPress.
  destruct (is_digit_label label) eqn:Ed.
  { left. destruct (is_digit_label_token label Ed) as [d ->].
    now exists (Digit d). }
  repeat
    match goal with
    | |- context [String.eqb label ?l] =>
        destruct (String.eqb_spec label l) as [->|?]; [left; pad_token|]
    end.
  now right.
Qed.

Lemma isOperator_label op : isOperator (operator_label op) = true.
Proof. destruct op; reflexivity. Qed.

Lemma isOperator_true label :
  isOperator label = true -> exists op, label = operator_label op.
Proof.
  unfold isOperator.
  destruct (String.eqb_spec label "+") as [->|?]; [now exists Add|].
  destruct (String.eqb_spec label "-") as [->|?]; [now exists Subtract|].
  destruct (String.eqb_spec label "×") as [->|?]; [now exists Multiply|].
  destruct (String.eqb_spec label "÷") as [->|?]; [now exists Divide|].
  discriminate.
Qed.

End PadFacts.
Export PadFacts.

(** X1. The labels of [buttonRows] are exactly the labels of the
    keys, and [handleButtonPress] leaves the state alone for every
    label that is not on the pad. *)
Theorem handleButtonPress_pad (label : string) (s : CalculatorState) :
  (In label (List.concat buttonRows) <-> exists t, label = label_of t) /\
  (In label (List.concat buttonRows) \/ handleButtonPress label s = s).
Proof.
  split.
  - split; [apply on_pad_label_of|].
    intros [t ->]. apply label_of_on_pad.
  - destruct (handleButtonPress_cases label s) as [[t ->]|H].
    + left. apply label_of_on_pad.
    + now right.
Qed.

(** X2. [isOperator] holds of exactly the four operator labels, and
    these are the labels [handleButtonPress] sends to
    [handleOperatorPress], each with its own operator. *)
Theorem isOperator_dispatch (label : string) (s : CalculatorState) :
  if isOperator label
  then exists op, label = operator_label op /\
                  handleButtonPress label s = handleOperatorPress op s
  else forall op, label <> operator_label op.
Proof.
  destruct (isOperator label) eqn:E.
  - destruct (isOperator_true label E) as [op ->].
    exists op. split; [reflexivity|].
    exact (apply_token_eq s (OperatorKey op)).
  - intros op ->. now rewrite isOperator_label in E.
Qed.

(** X3. [getButtonStyle] gives every label the base style and one
    colour: the operator colour exactly to the operator labels and
    ["="], the utility colour exactly to ["AC"], ["+/-"] and ["%"],
    the digit colour to every other label; only ["0"] is wide. *)
Theorem getButtonStyle_classes (label : string) :
  (exists colour,
      In colour [buttonDigit; buttonUtility; buttonOperator] /\
      getButtonStyle label
      = if label =? "0" then [button; colour; buttonWide]
        else [button; colour]) /\
  (In buttonOperator (getButtonStyle label) <->
   (exists op, label = operator_label op) \/ label = "=") /\
  (In buttonUtility (getButtonStyle label) <->
   label = "AC" \/ label = "+/-" \/ label = "%") /\
  (In buttonWide (getButtonStyle label) <-> label = "0").
Proof.
  assert (Hop : isOperator label = false ->
                ~ exists op, label = operator_label op).
  { intros E [op ->]. now rewrite isOperator_label in E. }
  unfold getButtonStyle.
  destruct (isOperator label) eqn:Eo;
    [destruct (isOperator_true label Eo) as [op ->]; clear Hop; destruct op
    |specialize (Hop eq_refl); simpl;
     destruct (String.eqb_spec label "=") as [->|?];
     [|destruct (String.eqb_spec label "AC") as [->|?];
       [|destruct (String.eqb_spec label "+/-") as [->|?];
         [|destruct (String.eqb_spec label "%") as [->|?];
           [|simpl; destruct (String.eqb_spec label "0") as [->|?]]]]]];
    simpl;
    (split;
     [first [ exists buttonOperator; simpl; split; [tauto|reflexivity]
            | exists buttonUtility; simpl; split; [tauto|reflexivity]
            | exists buttonDigit; simpl; split; [tauto|reflexivity] ]|]);
    repeat split; intros H; simpl in H;
    repeat (destruct H as [H|H]);
    first [ discriminate H | contradiction | congruence | pick_operator
          | simpl; auto 6 ].
Qed.

(* ================================================================== *)
(** ** Further properties of the handlers *)

Module EntryFacts.

Lemma run_app ts us s : run (ts ++ us) s = run us (run ts s).
Proof. apply fold_left_app. Qed.

Lemma run_snoc ts t s : run (ts ++ [t]) s = apply_token (run ts s) t.
Proof. now rewrite run_app. Qed.

Lemma includes_append_dot (v : string) : includes (v ++ ".") "." = true.
Proof.
  induction v as [|c v IH]; [reflexivity|].
  change (String c v ++ ".") with (String c (v ++ ".")).
  cbn [includes]. rewrite IH. apply orb_true_r.
Qed.

Lemma digit_label_char d : digit_label d = String (digit_char d) "".
Proof. destruct d; reflexivity. Qed.

Lemma is_digit_digit_char d : is_digit (digit_char d) = true.
Proof. destruct d; reflexivity. Qed.

Lemma labels_text_cons d ds :
  labels_text (d :: ds) = String (digit_char d) (labels_text ds).
Proof. simpl. now rewrite digit_label_char. Qed.

Lemma labels_text_snoc ds d :
  labels_text (ds ++ [d]) = labels_text ds ++ digit_label d.
Proof.
  induction ds as [|e ds IH].
  - simpl. rewrite digit_label_char. reflexivity.
  - change ((e :: ds) ++ [d])%list with (e :: (ds ++ [d]))%list.
    rewrite !labels_text_cons, IH. reflexivity.
Qed.

Lemma drop_zeros_head ds d r : drop_zeros ds = d :: r -> d <> d0.
Proof.
  induction ds as [|e ds IH]; [discriminate|].
  destruct e; simpl; auto; intros [= <- _]; discriminate.
Qed.

Lemma drop_zeros_snoc ds d :
  drop_zeros (ds ++ [d]) =
  match drop_zeros ds with
  | [] => drop_zeros [d]
  | l => (l ++ [d])%list
  end.
Proof.
  induction ds as [|e ds IH]; [reflexivity|].
  destruct e; try reflexivity. exact IH.
Qed.

Lemma labels_text_not_zero d r : d <> d0 -> labels_text (d :: r) <> "0".
Proof.
  rewrite labels_text_cons.
  destruct d; simpl; intros H E; try discriminate E. now apply H.
Qed.

Lemma digits_text_zero ds : digits_text ds = "0" -> drop_zeros ds = [].
Proof.
  unfold digits_text. destruct (drop_zeros ds) as [|d r] eqn:E; trivial.
  intros H. exfalso.
  exact (labels_text_not_zero d r (drop_zeros_head ds d r E) H).
Qed.

Lemma digits_text_snoc ds d :
  digits_text (ds ++ [d]) =
  if digits_text ds =? "0" then digit_label d
  else digits_text ds ++ digit_label d.
Proof.
  destruct (String.eqb_spec (digits_text ds) "0") as [E|N].
  - apply digits_text_zero in E.
    unfold digits_text. rewrite drop_zeros_snoc, E.
    destruct d; reflexivity.
  - unfold digits_text in *. rewrite drop_zeros_snoc.
    destruct (drop_zeros ds) as [|e r] eqn:E; [congruence|].
    change ((e :: r) ++ [d])%list with (e :: (r ++ [d]))%list.
    cbv iota. rewrite <- labels_text_snoc. reflexivity.
Qed.

(** Digit keys that start a new entry write the digits without their
    leading zeros and touch nothing else but the flag. *)
Lemma digit_entry ds s :
  ds <> [] -> isNewEntry s = true ->
  run (map Digit ds) s
  = {| displayValue := digits_text ds;
       previousValue := previousValue s;
       operator := operator s;
       isNewEntry := false |}.
Proof.
  induction ds as [|d ds IH] using rev_ind; [congruence|].
  intros _ Hn. rewrite map_app.
  change (map Digit [d]) with [Digit d].
  rewrite run_snoc, apply_token_eq.
  destruct ds as [|e ds'].
  - simpl. unfold handleDigitPress. rewrite Hn. simpl.
    destruct d; reflexivity.
  - rewrite (IH ltac:(discriminate) Hn).
    unfold handleDigitPress. cbn [isNewEntry displayValue orb].
    rewrite digits_text_snoc.
    destruct (digits_text (e :: ds') =? "0"); reflexivity.
Qed.

(** *** What the digits read back as *)

Lemma digits_value_chars ds acc :
  fold_left (fun a c => 10 * a + digit_value c) (map digit_char ds) acc
  = fold_left (fun a d => 10 * a + digit_Z d) ds acc.
Proof.
  revert acc. induction ds as [|d ds IH]; intros acc; [reflexivity|].
  simpl. rewrite IH. destruct d; reflexivity.
Qed.

Lemma digits_Z_nonneg_from ds acc :
  0 <= acc -> 0 <= fold_left (fun a d => 10 * a + digit_Z d) ds acc.
Proof.
  revert acc. induction ds as [|d ds IH]; intros acc H; [exact H|].
  cbn [fold_left]. apply IH. destruct d; cbn [digit_Z]; lia.
Qed.

Lemma digits_Z_nonneg ds : 0 <= digits_Z ds.
Proof. apply digits_Z_nonneg_from. lia. Qed.

Lemma digits_Z_drop_zeros ds : digits_Z (drop_zeros ds) = digits_Z ds.
Proof.
  induction ds as [|d ds IH]; [reflexivity|].
  destruct d; try reflexivity. exact IH.
Qed.

Lemma list_of_labels_text ds :
  list_ascii_of_string (labels_text ds) = map digit_char ds.
Proof.
  induction ds as [|d ds IH]; [reflexivity|].
  rewrite labels_text_cons. simpl. now rewrite IH.
Qed.

Lemma span_digits_chars ds :
  span_digits (map digit_char ds) = (map digit_char ds, []).
Proof.
  induction ds as [|d ds IH]; [reflexivity|].
  simpl. rewrite is_digit_digit_char, IH. reflexivity.
Qed.

Lemma of_Z_nonneg z : 0 <= z -> of_Z z = of_decimal false z 0.
Proof.
  intros H. unfold of_Z.
  rewrite (proj2 (Z.ltb_ge z 0) H), Z.abs_eq by exact H. reflexivity.
Qed.

(** [parseFloat] on a string that starts with a digit or with the
    letter I: no white space to skip and no sign. *)
Lemma parseFloat_head c (v : string) :
  is_digit c || Ascii.eqb c "I" = true ->
  parseFloat (String c v) = parse_unsigned false (c :: list_ascii_of_string v).
Proof.
  destruct c as [[|] [|] [|] [|] [|] [|] [|] [|]]; intros H;
    try discriminate H; reflexivity.
Qed.

Lemma parse_unsigned_digits sx d ds :
  parse_unsigned sx (map digit_char (d :: ds))
  = of_decimal sx (digits_Z (d :: ds)) 0.
Proof.
  unfold parse_unsigned.
  replace (is_prefix (list_ascii_of_string "Infinity")
             (map digit_char (d :: ds))) with false
    by (destruct d; reflexivity).
  rewrite span_digits_chars.
  cbn [map]. rewrite app_nil_r.
  unfold digits_value.
  rewrite <- (map_cons digit_char d ds), digits_value_chars.
  reflexivity.
Qed.

Lemma parseFloat_digits_text ds :
  parseFloat (digits_text ds) = of_Z (digits_Z ds).
Proof.
  rewrite of_Z_nonneg by apply digits_Z_nonneg.
  rewrite <- digits_Z_drop_zeros. unfold digits_text.
  destruct (drop_zeros ds) as [|d r]; [reflexivity|].
  rewrite labels_text_cons, parseFloat_head
    by (rewrite is_digit_digit_char; reflexivity).
  rewrite list_of_labels_text.
  exact (parse_unsigned_digits false d r).
Qed.

End EntryFacts.
Export EntryFacts.

(** X4. The dot key is idempotent in every state: pressed twice it
    leaves the state the first press left. *)
Theorem dot_idempotent (s : CalculatorState) :
  apply_token (apply_token s Dot) Dot = apply_token s Dot.
Proof.
  rewrite !apply_token_eq.
  assert (H : isNewEntry (handleDotPress s) = false /\
              includes (displayValue (handleDotPress s)) "." = true).
  { unfold handleDotPress.
    destruct (isNewEntry s) eqn:En; [split; reflexivity|].
    destruct (includes (displayValue s) ".") eqn:Ei; simpl;
      [now split|].
    split; [exact En|apply includes_append_dot]. }
  destruct H as [Hn Hi].
  generalize dependent (handleDotPress s). intros s1 Hn Hi.
  unfold handleDotPress. rewrite Hn, Hi. apply setDisplayValue_same.
Qed.

(** X5. The equals key is idempotent in every state: a calculation
    clears the pending operation, so a second press finds nothing to
    do. *)
Theorem equals_idempotent (s : CalculatorState) :
  apply_token (apply_token s Equals) Equals = apply_token s Equals.
Proof.
  rewrite !apply_token_eq.
  assert (H : handleEqualsPress s = s \/
              operator (handleEqualsPress s) = None).
  { unfold handleEqualsPress.
    destruct (operator s), (previousValue s); auto. }
  destruct H as [H|H].
  - now rewrite !H.
  - generalize dependent (handleEqualsPress s). intros s1 H.
    unfold handleEqualsPress. now rewrite H.
Qed.

(** X6. The clear key forgets everything before it: whatever the
    state and the keys pressed so far, the keys after a clear act as
    from the initial state. *)
Theorem clear_resets (before after : list Token) (s : CalculatorState) :
  run (before ++ Clear :: after) s = run after initialState.
Proof.
  rewrite run_app. reflexivity.
Qed.

(** X7. An operator key pressed right after an operator key
    performs no calculation: it leaves the display, replaces the
    pending operator and reads the pending operand again from the
    display. *)
Theorem second_operator_press (s : CalculatorState) (op1 op2 : Operator) :
  let s1 := apply_token s (OperatorKey op1) in
  pending_evaluation s1 (OperatorKey op2) = None /\
  apply_token s1 (OperatorKey op2)
  = {| displayValue := displayValue s1;
       previousValue := Some (parseFloat (displayValue s1));
       operator := Some op2;
       isNewEntry := true |}.
Proof.
  intros s1.
  assert (Hn : isNewEntry s1 = true).
  { unfold s1. rewrite apply_token_eq. reflexivity. }
  split.
  - unfold pending_evaluation. rewrite Hn.
    destruct (previousValue s1), (operator s1); reflexivity.
  - rewrite apply_token_eq. unfold handleOperatorPress. rewrite Hn.
    destruct (previousValue s1), (operator s1); reflexivity.
Qed.



(** X9. From the initial state, a natural number, an operator key, a
    natural number and the equals key show the result of
    [performCalculation] on the two numbers (["Error"] if it is NaN)
    and leave no pending operation. *)
Theorem typed_calculation (ds1 ds2 : list digit) (op : Operator) :
  ds2 <> [] ->
  run (map Digit ds1 ++ OperatorKey op :: map Digit ds2 ++ [Equals])
      initialState
  = {| displayValue :=
         display_of_result
           (performCalculation op (of_Z (digits_Z ds1)) (of_Z (digits_Z ds2)));
       previousValue := None;
       operator := None;
       isNewEntry := true |}.
Proof.
  intros H2.
  assert (H1 : exists n,
             run (map Digit ds1) initialState
             = {| displayValue := digits_text ds1;
                  previousValue := None; operator := None;
                  isNewEntry := n |}).
  { destruct ds1 as [|d ds1]; [now exists true|].
    exists false.
    now rewrite (digit_entry (d :: ds1) initialState ltac:(discriminate)). }
  destruct H1 as [n H1].
  rewrite run_app, H1.
  change (OperatorKey op :: map Digit ds2 ++ [Equals])%list
    with ([OperatorKey op] ++ map Digit ds2 ++ [Equals])%list.
  rewrite run_app.
  change (run [OperatorKey op] ?x) with (apply_token x (OperatorKey op)).
  rewrite apply_token_eq. unfold handleOperatorPress.
  cbn [previousValue operator isNewEntry displayValue setPreviousValue
       setOperator setIsNewEntry].
  rewrite run_snoc, digit_entry by (trivial; reflexivity).
  rewrite apply_token_eq. unfold handleEqualsPress.
  cbn [previousValue operator isNewEntry displayValue setPreviousValue
       setOperator setIsNewEntry setDisplayValue].
  now rewrite !parseFloat_digits_text.
Qed.

Lemma typed_calculation_witness :
  [d6] <> [] /\
  displayValue
    (run (map Digit [d1; d2] ++ OperatorKey Multiply :: map Digit [d6]
            ++ [Equals]) initialState) = "72".
Proof.
  split; [discriminate|].
  rewrite (typed_calculation [d1; d2] [d6] Multiply ltac:(discriminate)).
  vm_compute. reflexivity.
Defined.

(* ================================================================== *)
(** ** The display as a number *)

Module ParseFacts.

#[local] Open Scope Z_scope.

Lemma parsable_cons c (b : string) :
  parsable (String c b) =
  if Ascii.eqb c "-" then parsable_body b else parsable_body (String c b).
Proof.
  destruct c as [[|] [|] [|] [|] [|] [|] [|] [|]]; reflexivity.
Qed.

Lemma parsable_body_head (v : string) :
  parsable_body v = true ->
  exists c r, v = String c r /\ is_digit c || Ascii.eqb c "I" = true.
Proof.
  destruct v as [|c r]; [discriminate|].
  unfold parsable_body. cbn [list_ascii_of_string is_prefix].
  intros H. exists c, r. split; [reflexivity|].
  destruct (is_digit c); [reflexivity|]. simpl in *.
  apply andb_true_iff in H. destruct H as [H _].
  rewrite Ascii.eqb_sym. exact H.
Qed.

Lemma head_not_minus c :
  is_digit c || Ascii.eqb c "I" = true -> Ascii.eqb c "-" = false.
Proof.
  destruct c as [[|] [|] [|] [|] [|] [|] [|] [|]]; intros H;
    try discriminate H; reflexivity.
Qed.

Lemma parsable_body_parsable (v : string) :
  parsable_body v = true -> parsable v = true.
Proof.
  intros H. destruct (parsable_body_head v H) as (c & r & -> & Hc).
  now rewrite parsable_cons, (head_not_minus c Hc).
Qed.

Lemma is_prefix_append p (v w : string) :
  is_prefix p (list_ascii_of_string v) = true ->
  is_prefix p (list_ascii_of_string (v ++ w)) = true.
Proof.
  revert v. induction p as [|a p IH]; intros v; [reflexivity|].
  destruct v as [|c r]; [discriminate|].
  change (String c r ++ w) with (String c (r ++ w)).
  cbn [list_ascii_of_string is_prefix]. intros H.
  apply andb_true_iff in H. destruct H as [Ha Hp].
  now rewrite Ha, (IH r Hp).
Qed.

Lemma parsable_body_append (v w : string) :
  parsable_body v = true -> parsable_body (v ++ w) = true.
Proof.
  unfold parsable_body.
  pose proof (is_prefix_append (list_ascii_of_string "Infinity") v w) as Hp.
  destruct v as [|c r]; [discriminate|].
  change (String c r ++ w) with (String c (r ++ w)) in *.
  cbn [list_ascii_of_string] in *. destruct (is_digit c); [reflexivity|].
  exact Hp.
Qed.

Lemma parsable_append (v w : string) :
  parsable v = true -> parsable (v ++ w) = true.
Proof.
  destruct v as [|c b]; [discriminate|].
  change (String c b ++ w) with (String c (b ++ w)).
  rewrite !parsable_cons. destruct (Ascii.eqb c "-").
  - apply parsable_body_append.
  - apply (parsable_body_append (String c b) w).
Qed.

Lemma parsable_not_error (v : string) : parsable v = true -> v <> "Error".
Proof. intros H ->. discriminate H. Qed.

Lemma digit_label_parsable d : parsable (digit_label d) = true.
Proof. destruct d; reflexivity. Qed.

Lemma toString_parsable x : isNaN x = false -> parsable (toString x) = true.
Proof.
  destruct x as [s|[|]| |sx m e]; intros Hx; try reflexivity;
    try discriminate Hx.
  unfold toString.
  destruct (shortest_decimal_shape m e) as (c & r & E & Hc & Hd).
  destruct (shortest_decimal m e) as [ds n]. simpl in E. subst ds.
  destruct (format_decimal_head c r n (Forall_inv Hd) Hc)
    as (c' & r' & E' & Hd' & _).
  rewrite E'. destruct sx.
  - cbn [List.app string_of_list_ascii]. rewrite parsable_cons.
    cbn [Ascii.eqb Bool.eqb]. unfold parsable_body.
    cbn [list_ascii_of_string]. now rewrite Hd'.
  - cbn [List.app string_of_list_ascii]. apply parsable_body_parsable.
    unfold parsable_body. cbn [list_ascii_of_string]. now rewrite Hd'.
Qed.

(** In a reachable state the display is ["Error"] or reads as a
    number. *)
Lemma reachable_parsable s :
  reachable s ->
  displayValue s = "Error" \/ parsable (displayValue s) = true.
Proof.
  induction 1 as [|s t Hr IH]; [now right|].
  pose proof (reachable_error_new_entry s Hr) as Herr.
  rewrite apply_token_eq. destruct t as [d| | | | |op|].
  - unfold handleDigitPress.
    destruct (isNewEntry s) eqn:En; simpl.
    + right. apply digit_label_parsable.
    + destruct (displayValue s =? "0")%string; simpl; right.
      * apply digit_label_parsable.
      * destruct IH as [E|P]; [specialize (Herr E); congruence|].
        now apply parsable_append.
  - unfold handleDotPress.
    destruct (isNewEntry s) eqn:En; simpl; [now right|].
    destruct (includes (displayValue s) "."); simpl; [exact IH|].
    right. destruct IH as [E|P]; [specialize (Herr E); congruence|].
    now apply parsable_append.
  - now right.
  - unfold handleToggleSignPress.
    destruct (String.eqb_spec (displayValue s) "0"); simpl; [exact IH|].
    destruct (String.eqb_spec (displayValue s) "Error"); simpl;
      [exact IH|].
    destruct IH as [E|P]; [contradiction|]. right.
    destruct (displayValue s) as [|c b]; [discriminate P|].
    rewrite startsWith_minus. rewrite parsable_cons in P.
    destruct (Ascii.eqb c "-") eqn:Ec; simpl.
    + now apply parsable_body_parsable.
    + exact P.
  - unfold handlePercentPress.
    destruct (isNaN (parseFloat (displayValue s))) eqn:Ev; simpl;
      [exact IH|].
    right. now apply toString_parsable, div_hundred_not_nan.
  - unfold handleOperatorPress.
    destruct (previousValue s) as [prev|], (operator s) as [op'|],
      (isNewEntry s); simpl; trivial.
    destruct (display_of_result_cases
                (performCalculation op' prev (parseFloat (displayValue s))))
      as [[_ ->]|[Hx ->]]; [now left|].
    right. now apply toString_parsable.
  - unfold handleEqualsPress.
    destruct (operator s) as [op'|], (previousValue s) as [prev|];
      simpl; trivial.
    destruct (display_of_result_cases
                (performCalculation op' prev (parseFloat (displayValue s))))
      as [[_ ->]|[Hx ->]]; [now left|].
    right. now apply toString_parsable.
Qed.

(** *** Reading a parsable display *)

Lemma digits_value_nonneg_from l acc :
  0 <= acc ->
  0 <= fold_left (fun a c => 10 * a + digit_value c) l acc.
Proof.
  revert acc. induction l as [|c l IH]; intros acc H; [exact H|].
  cbn [fold_left]. apply IH.
  assert (0 <= digit_value c); [|lia].
  destruct c as [[|] [|] [|] [|] [|] [|] [|] [|]]; cbn; lia.
Qed.

Lemma digits_value_nonneg l : 0 <= digits_value l.
Proof. apply digits_value_nonneg_from. lia. Qed.

Lemma of_decimal_not_nan sx m e :
  0 <= m -> isNaN (of_decimal sx m e) = false.
Proof.
  intros H. unfold of_decimal.
  destruct (m =? 0); [reflexivity|].
  destruct (0 <=? e) eqn:Ee.
  - apply Z.leb_le in Ee. apply round_ratio_not_nan; [|lia].
    apply Z.mul_nonneg_nonneg; [exact H|]. apply Z.pow_nonneg. lia.
  - apply Z.leb_gt in Ee. apply round_ratio_not_nan; [exact H|].
    apply Z.pow_pos_nonneg; lia.
Qed.

Lemma parse_unsigned_not_nan sx c (l : list ascii) :
  is_digit c || is_prefix (list_ascii_of_string "Infinity") (c :: l) = true ->
  isNaN (parse_unsigned sx (c :: l)) = false.
Proof.
  intros H. unfold parse_unsigned.
  destruct (is_prefix _ (c :: l)); [reflexivity|].
  rewrite orb_false_r in H. cbn [span_digits]. rewrite H.
  destruct (span_digits l) as [ds rest].
  destruct (match rest with
            | "."%char :: r => span_digits r
            | _ => ([], rest)
            end) as [fp r2].
  apply of_decimal_not_nan, digits_value_nonneg.
Qed.

Lemma parsable_body_not_nan sx (v : string) :
  parsable_body v = true ->
  isNaN (parse_unsigned sx (list_ascii_of_string v)) = false.
Proof.
  unfold parsable_body. destruct v as [|c r]; [discriminate|].
  cbn [list_ascii_of_string]. apply parse_unsigned_not_nan.
Qed.

Lemma parseFloat_minus (b : string) :
  parseFloat (String "-" b) = parse_unsigned true (list_ascii_of_string b).
Proof. reflexivity. Qed.

Lemma parseFloat_body (v : string) :
  parsable_body v = true ->
  parseFloat v = parse_unsigned false (list_ascii_of_string v).
Proof.
  intros H. destruct (parsable_body_head v H) as (c & r & -> & Hc).
  now apply parseFloat_head.
Qed.

Lemma parsable_not_nan (v : string) :
  parsable v = true -> isNaN (parseFloat v) = false.
Proof.
  destruct v as [|c b]; [discriminate|].
  rewrite parsable_cons.
  destruct (Ascii.eqb_spec c "-") as [->|Hc]; intros H.
  - rewrite parseFloat_minus. now apply parsable_body_not_nan.
  - rewrite (parseFloat_body _ H). now apply parsable_body_not_nan.
Qed.

(** *** Signs *)

Lemma binary_round_aux_opp sx m e l :
  binary_round_aux prec emax (negb sx) m e l
  = SFopp (binary_round_aux prec emax sx m e l).
Proof.
  unfold binary_round_aux.
  destruct (shr_fexp prec emax m e l) as [mrs' e'].
  destruct (shr_fexp prec emax _ e' loc_Exact) as [mrs'' e''].
  destruct (shr_m mrs''); try reflexivity.
  destruct (e'' <=? emax - prec); reflexivity.
Qed.

Lemma of_decimal_opp sx m e :
  of_decimal (negb sx) m e = SFopp (of_decimal sx m e).
Proof.
  unfold of_decimal, round_ratio.
  destruct (m =? 0); [reflexivity|].
  destruct (0 <=? e).
  - destruct (SFdiv_core_binary prec emax (m * 10 ^ e) 0 1 0) as [[mz ez] lz].
    apply binary_round_aux_opp.
  - destruct (SFdiv_core_binary prec emax m 0 (10 ^ (- e)) 0)
      as [[mz ez] lz].
    apply binary_round_aux_opp.
Qed.

Lemma parse_unsigned_opp sx (l : list ascii) :
  parse_unsigned (negb sx) l = SFopp (parse_unsigned sx l).
Proof.
  unfold parse_unsigned.
  destruct (is_prefix _ l); [reflexivity|].
  destruct (span_digits l) as [ip r1].
  destruct (match r1 with
            | "."%char :: r => span_digits r
            | _ => ([], r1)
            end) as [fp r2].
  destruct ip, fp; try reflexivity; apply of_decimal_opp.
Qed.

Lemma SFopp_involutive x : SFopp (SFopp x) = x.
Proof. destruct x; simpl; now rewrite ?negb_involutive. Qed.

(** Keys that edit the entry keep the pending operation. *)
Lemma entry_key_frame s t :
  entry_key t = true ->
  previousValue (apply_token s t) = previousValue s /\
  operator (apply_token s t) = operator s.
Proof.
  rewrite apply_token_eq.
  destruct t as [d| | | | |op|]; try discriminate; intros _.
  - unfold handleDigitPress.
    destruct (isNewEntry s || (displayValue s =? "0")%string); now split.
  - unfold handleDotPress. destruct (isNewEntry s); [now split|].
    destruct (includes (displayValue s) "."); now split.
  - unfold handleToggleSignPress.
    destruct ((displayValue s =? "0")%string
              || (displayValue s =? "Error")%string); [now split|].
    destruct (startsWith (displayValue s) "-"); now split.
  - unfold handlePercentPress.
    destruct (isNaN (parseFloat (displayValue s))); now split.
Qed.

Lemma entry_keys_frame ts s :
  forallb entry_key ts = true ->
  previousValue (run ts s) = previousValue s /\
  operator (run ts s) = operator s.
Proof.
  revert s. induction ts as [|t ts IH]; intros s H; [now split|].
  cbn [forallb] in H. apply andb_true_iff in H. destruct H as [Ht Hts].
  change (run (t :: ts) s) with (run ts (apply_token s t)).
  destruct (IH (apply_token s t) Hts) as [-> ->].
  now apply entry_key_frame.
Qed.

End ParseFacts.
Export ParseFacts.

(** X10. In a reachable state the display is never empty and never
    ["NaN"], and [parseFloat] fails on it exactly when it is
    ["Error"]. *)
Theorem display_parses_unless_error (s : CalculatorState) :
  reachable s ->
  displayValue s <> "" /\
  displayValue s <> "NaN" /\
  (isNaN (parseFloat (displayValue s)) = true <-> displayValue s = "Error").
Proof.
  intros Hr. destruct (reachable_parsable s Hr) as [E|P].
  - rewrite E. repeat split; discriminate.
  - pose proof (parsable_not_nan _ P) as Hn.
    repeat split.
    + intros E. now rewrite E in P.
    + intros E. now rewrite E in P.
    + congruence.
    + intros E. now rewrite E in P.
Qed.

Lemma display_parses_unless_error_witness :
  let s :=
    run [Digit d1; Dot; Digit d5; Percent; Percent; Percent; Percent;
         Percent; Dot; Digit d3; ToggleSign] initialState in
  reachable s /\
  displayValue s = "-1.5e-103" /\
  displayValue s <> "" /\
  displayValue s <> "NaN" /\
  (isNaN (parseFloat (displayValue s)) = true <-> displayValue s = "Error").
Proof.
  intros s.
  assert (Hr : reachable s) by apply reachable_run.
  split; [exact Hr|]. split; [vm_compute; reflexivity|].
  exact (display_parses_unless_error s Hr).
Defined.

(** X11. In a reachable state whose display is neither ["0"] nor
    ["Error"], the sign key negates the number on the display. *)
Theorem toggle_sign_negates (s : CalculatorState) :
  reachable s ->
  displayValue s <> "0" ->
  displayValue s <> "Error" ->
  parseFloat (displayValue (apply_token s ToggleSign))
  = SFopp (parseFloat (displayValue s)).
Proof.
  intros Hr H0 He.
  destruct (reachable_parsable s Hr) as [E|P]; [contradiction|].
  rewrite apply_token_eq. unfold handleToggleSignPress.
  apply String.eqb_neq in H0, He. rewrite H0, He. cbn [orb].
  destruct (displayValue s) as [|c b]; [discriminate P|].
  rewrite startsWith_minus. rewrite parsable_cons in P.
  destruct (Ascii.eqb_spec c "-") as [->|Hc]; simpl displayValue.
  - rewrite parseFloat_minus, (parseFloat_body b P).
    rewrite (parse_unsigned_opp false). cbn [negb].
    now rewrite SFopp_involutive.
  - change ("-" ++ String c b) with (String "-" (String c b)).
    rewrite parseFloat_minus, (parseFloat_body _ P).
    exact (parse_unsigned_opp false _).
Qed.

Lemma toggle_sign_negates_witness :
  let s := run [Digit d0; Dot; Digit d2; Digit d5] initialState in
  reachable s /\ displayValue s = "0.25" /\
  parseFloat (displayValue (apply_token s ToggleSign))
  = SFopp (parseFloat "0.25").
Proof.
  intros s.
  assert (Hr : reachable s) by apply reachable_run.
  assert (Hv : displayValue s = "0.25") by reflexivity.
  split; [exact Hr|]. split; [exact Hv|].
  rewrite <- Hv. apply (toggle_sign_negates s Hr); rewrite Hv; discriminate.
Defined.

(** X12. An error goes through an operator key: from a reachable
    state that shows ["Error"], an operator key, any keys that only
    edit the entry (digits, dot, sign, percent) and the equals key
    show ["Error"] again. *)
Theorem error_propagates (s : CalculatorState) (op : Operator)
  (ts : list Token) :
  reachable s ->
  displayValue s = "Error" ->
  forallb entry_key ts = true ->
  previousValue (apply_token s (OperatorKey op)) = Some NaN /\
  displayValue (apply_token (run ts (apply_token s (OperatorKey op))) Equals)
  = "Error".
Proof.
  intros Hr He Ht.
  pose proof (reachable_error_new_entry s Hr He) as Hn.
  assert (H1 : previousValue (apply_token s (OperatorKey op)) = Some NaN /\
               operator (apply_token s (OperatorKey op)) = Some op).
  { rewrite apply_token_eq. unfold handleOperatorPress. rewrite Hn, He.
    destruct (previousValue s), (operator s); split; reflexivity. }
  destruct H1 as [Hp Ho]. split; [exact Hp|].
  destruct (entry_keys_frame ts (apply_token s (OperatorKey op)) Ht)
    as [Hp' Ho'].
  rewrite Hp in Hp'. rewrite Ho in Ho'.
  rewrite apply_token_eq. unfold handleEqualsPress. rewrite Hp', Ho'.
  cbn [displayValue setIsNewEntry setOperator setPreviousValue
       setDisplayValue].
  unfold display_of_result. now rewrite performCalculation_nan.
Qed.

Lemma error_propagates_witness :
  let s := run [Digit d5; OperatorKey Divide; Digit d0; Equals] initialState in
  let ts := [Digit d4; Dot; Digit d2; ToggleSign; Percent] in
  reachable s /\ displayValue s = "Error" /\ forallb entry_key ts = true /\
  displayValue
    (apply_token (run ts (apply_token s (OperatorKey Multiply))) Equals)
  = "Error".
Proof.
  intros s ts.
  assert (Hr : reachable s) by apply reachable_run.
  assert (He : displayValue s = "Error") by (vm_compute; reflexivity).
  assert (Ht : forallb entry_key ts = true) by reflexivity.
  split; [exact Hr|]. split; [exact He|]. split; [exact Ht|].
  exact (proj2 (error_propagates s Multiply ts Hr He Ht)).
Defined.

(** X13. [performCalculation] is commutative for addition and for
    multiplication, on all numbers: NaN, infinities and signed zeros
    included. *)
Theorem performCalculation_commutative (a b : number) :
  performCalculation Add a b = performCalculation Add b a /\
  performCalculation Multiply a b = performCalculation Multiply b a.
Proof.
  split; unfold performCalculation, add, mul.
  - destruct a as [sa|sa| |sa ma ea], b as [sb|sb| |sb mb eb];
      try reflexivity; try (destruct sa, sb; reflexivity).
    unfold SFadd. rewrite (Z.min_comm ea eb).
    f_equal. apply Z.add_comm.
  - destruct a as [sa|sa| |sa ma ea], b as [sb|sb| |sb mb eb];
      try reflexivity; try (destruct sa, sb; reflexivity).
    unfold SFmul.
    now rewrite (xorb_comm sa sb), (Pos.mul_comm ma mb), (Z.add_comm ea eb).
Qed.

(* ================================================================== *)
(** ** Entry mode, the decimal point and chains *)

Module ChainFacts.

Lemma includes_dot_true (v : string) :
  includes v "." = true -> (1 <= decimal_points v)%nat.
Proof.
  unfold decimal_points.
  induction v as [|c v IH]; [discriminate|].
  cbn [includes count_char].
  destruct (Ascii.eqb_spec c ".") as [->|Hc]; [lia|].
  change (String.prefix "." (String c v))
    with (if ascii_dec "." c then String.prefix "" v else false).
  destruct (ascii_dec "." c) as [E|_]; [congruence|].
  cbn [orb]. intros H. specialize (IH H). lia.
Qed.

(** The state after a natural number is typed into the initial
    state. *)
Lemma typed_number ds :
  exists n,
    run (map Digit ds) initialState
    = {| displayValue := digits_text ds;
         previousValue := None;
         operator := None;
         isNewEntry := n |}.
Proof.
  destruct ds as [|d ds]; [now exists true|].
  exists false.
  now rewrite (digit_entry (d :: ds) initialState ltac:(discriminate)).
Qed.

Lemma run_cons t ts s : run (t :: ts) s = run ts (apply_token s t).
Proof. reflexivity. Qed.

End ChainFacts.
Export ChainFacts.

(** X14. The new-entry flag after a key: digit and dot keys always
    clear it, clear and operator keys always set it, the equals key
    sets it when an operation is pending and leaves it otherwise, and
    the sign and percent keys leave it. *)
Theorem entry_mode_after_key (s : CalculatorState) (t : Token) :
  isNewEntry (apply_token s t) =
  match t with
  | Digit _ | Dot => false
  | Clear | OperatorKey _ => true
  | Equals =>
      match operator s, previousValue s with
      | Some _, Some _ => true
      | _, _ => isNewEntry s
      end
  | ToggleSign | Percent => isNewEntry s
  end.
Proof.
  rewrite apply_token_eq. destruct t as [d| | | | |op|].
  - unfold handleDigitPress. destruct (isNewEntry s) eqn:En; simpl;
      [reflexivity|].
    destruct (displayValue s =? "0"); simpl; [reflexivity|exact En].
  - unfold handleDotPress. destruct (isNewEntry s) eqn:En; simpl;
      [reflexivity|].
    destruct (includes (displayValue s) "."); exact En.
  - reflexivity.
  - unfold handleToggleSignPress.
    destruct ((displayValue s =? "0") || (displayValue s =? "Error"));
      [reflexivity|].
    destruct (startsWith (displayValue s) "-"); reflexivity.
  - unfold handlePercentPress.
    destruct (isNaN (parseFloat (displayValue s))); reflexivity.
  - reflexivity.
  - unfold handleEqualsPress.
    destruct (operator s), (previousValue s); reflexivity.
Qed.

(** X15. After the dot key a display that had at most one decimal
    point has exactly one. *)
Theorem dot_gives_one_point (s : CalculatorState) :
  (decimal_points (displayValue s) <= 1)%nat ->
  decimal_points (displayValue (apply_token s Dot)) = 1%nat.
Proof.
  intros H. rewrite apply_token_eq. unfold handleDotPress.
  destruct (isNewEntry s); [reflexivity|].
  destruct (includes (displayValue s) ".") eqn:Ei; simpl.
  - apply includes_dot_true in Ei. lia.
  - apply includes_dot_false in Ei.
    unfold decimal_points in *. rewrite count_char_append, Ei.
    reflexivity.
Qed.

Lemma dot_gives_one_point_witness :
  let s := run [Digit d7; OperatorKey Add; Digit d1; Digit d2] initialState in
  (decimal_points (displayValue s) <= 1)%nat /\
  displayValue (apply_token s Dot) = "12." /\
  decimal_points (displayValue (apply_token s Dot)) = 1%nat.
Proof.
  intros s.
  assert (H : (decimal_points (displayValue s) <= 1)%nat)
    by (vm_compute; lia).
  split; [exact H|]. split; [reflexivity|].
  exact (dot_gives_one_point s H).
Defined.

(** X16. Chains are evaluated from left to right, without operator
    precedence: from the initial state, three natural numbers
    separated by two operator keys and followed by the equals key
    show the second operator applied to the result of the first and
    to the third number. *)
Theorem left_to_right_evaluation
  (ds1 ds2 ds3 : list digit) (op1 op2 : Operator) :
  ds2 <> [] ->
  ds3 <> [] ->
  run (map Digit ds1 ++ OperatorKey op1 :: map Digit ds2
         ++ OperatorKey op2 :: map Digit ds3 ++ [Equals]) initialState
  = {| displayValue :=
         display_of_result
           (performCalculation op2
              (performCalculation op1
                 (of_Z (digits_Z ds1)) (of_Z (digits_Z ds2)))
              (of_Z (digits_Z ds3)));
       previousValue := None;
       operator := None;
       isNewEntry := true |}.
Proof.
  intros H2 H3.
  destruct (typed_number ds1) as [n H1].
  rewrite run_app, H1, run_cons, apply_token_eq.
  unfold handleOperatorPress.
  cbn [previousValue operator isNewEntry displayValue setPreviousValue
       setOperator setIsNewEntry].
  rewrite run_app, digit_entry by (trivial; reflexivity).
  rewrite run_cons, apply_token_eq. unfold handleOperatorPress.
  cbn [previousValue operator isNewEntry displayValue setPreviousValue
       setOperator setIsNewEntry setDisplayValue].
  rewrite run_snoc, digit_entry by (trivial; reflexivity).
  rewrite apply_token_eq. unfold handleEqualsPress.
  cbn [previousValue operator isNewEntry displayValue setPreviousValue
       setOperator setIsNewEntry setDisplayValue].
  now rewrite !parseFloat_digits_text.
Qed.

Lemma left_to_right_evaluation_witness :
  [d3] <> [] /\ [d4] <> [] /\
  displayValue
    (run (map Digit [d2] ++ OperatorKey Add :: map Digit [d3]
            ++ OperatorKey Multiply :: map Digit [d4] ++ [Equals])
         initialState) = "20".
Proof.
  split; [discriminate|]. split; [discriminate|].
  rewrite (left_to_right_evaluation [d2] [d3] [d4] Add Multiply
             ltac:(discriminate) ltac:(discriminate)).
  vm_compute. reflexivity.
Defined.

(** X17. The equals key pressed right after an operator key takes
    the number on the display for both operands: from the initial
    state, a natural number, an operator key and the equals key show
    the operator applied to the number and itself. *)
Theorem equals_after_operator (ds : list digit) (op : Operator) :
  run (map Digit ds ++ [OperatorKey op; Equals]) initialState
  = {| displayValue :=
         display_of_result
           (performCalculation op (of_Z (digits_Z ds)) (of_Z (digits_Z ds)));
       previousValue := None;
       operator := None;
       isNewEntry := true |}.
Proof.
  destruct (typed_number ds) as [n H].
  rewrite run_app, H, run_cons, apply_token_eq.
  unfold handleOperatorPress.
  cbn [previousValue operator isNewEntry displayValue setPreviousValue
       setOperator setIsNewEntry].
  rewrite run_cons, apply_token_eq. unfold handleEqualsPress.
  cbn [previousValue operator isNewEntry displayValue setPreviousValue
       setOperator setIsNewEntry setDisplayValue run fold_left].
  now rewrite !parseFloat_digits_text.
Qed.
